(** * Shared-memory kernel objects (core/hle/kernel/shared_memory.cpp)

    A shallow embedding of [SharedMemory]: the two creation entry points of
    [KernelSystem], [SharedMemory::Map], [SharedMemory::Unmap], the
    destructor and [ConvertPermissions], with the properties of the
    permission and address protocol of [Map] and of the object's life cycle.

    Conventions.
    - A [u32] (also [VAddr], [PAddr]) is a [Z]; every C++ addition and
      subtraction on it is followed by [u32], the reduction modulo 2^32.
    - A non-const method is a function from the state it can write to the new
      state; a reference parameter is passed in and handed back.
    - [ASSERT] failures and null dereferences are outcomes of their own,
      distinct from every [ResultCode].
    - The physical region allocator and the address-space manager live in
      other translation units; they enter as interfaces ([MemoryRegionOps],
      [VMManagerOps]) and every theorem holds for all their implementations. *)

From stdpp Require Import gmap strings list.
From Stdlib Require Import ZArith Lia Bool.

Local Open Scope Z_scope.

Module Kernel.

(** ** Machine integers *)

Definition u32 (z : Z) : Z := z mod 2 ^ 32.

Definition is_u32 (z : Z) : Prop := 0 <= z < 2 ^ 32.

(** ** Result codes and outcomes *)

(** Modelled from the spec: core/hle/kernel/errors.h is not part of the
    sources at hand; section 7 of the specification names the four error
    kinds [Map] returns, all distinct from each other and from success. *)
Inductive ResultCode : Type :=
  | RESULT_SUCCESS
  | ERR_INVALID_COMBINATION
  | ERR_WRONG_PERMISSION
  | ERR_INVALID_ADDRESS
  | ERR_INVALID_ADDRESS_STATE.

#[global] Instance ResultCode_eq_dec : EqDecision ResultCode.
Proof. solve_decision. Defined.

Definition IsError (c : ResultCode) : bool :=
  match c with RESULT_SUCCESS => false | _ => true end.

(** [ResultVal<T>]: a value or the code of the error. *)
Inductive ResultVal (T : Type) : Type :=
  | MakeResult (v : T)
  | ErrorResult (code : ResultCode).
Arguments MakeResult {T} v.
Arguments ErrorResult {T} code.

(** What running a piece of code ends in: it returns, an [ASSERT] fails, or
    a null (or dangling) pointer is dereferenced. *)
Inductive Outcome (A : Type) : Type :=
  | Return (a : A)
  | AssertFailed
  | InvalidDeref.
Arguments Return {A} a.
Arguments AssertFailed {A}.
Arguments InvalidDeref {A}.

#[global] Instance Outcome_bind : MBind Outcome := fun A B f m =>
  match m with
  | Return a => f a
  | AssertFailed => AssertFailed
  | InvalidDeref => InvalidDeref
  end.

(** [ASSERT(cond)] *)
Definition ASSERT (cond : bool) : Outcome unit :=
  if cond then Return tt else AssertFailed.

(** ** Permissions *)

(** Modelled from the spec: [enum class MemoryPermission : u32] is declared
    in shared_memory.h, which is not at hand. Section 4.5 gives its shape: three
    combinable bits (read, write, execute), so [ReadWriteExecute] is the
    mask 7. A [MemoryPermission] is the [u32] behind it, as the code casts
    it before every use. *)
Definition MemoryPermission_None : Z := 0.
Definition MemoryPermission_Read : Z := 1.
Definition MemoryPermission_Write : Z := 2.
Definition MemoryPermission_ReadWrite : Z := 3.
Definition MemoryPermission_Execute : Z := 4.
Definition MemoryPermission_ReadWriteExecute : Z := 7.

(** Modelled from the spec: [enum class VMAPermission] of vm_manager.h; the
    cast in [ConvertPermissions] keeps the three bits as they are. *)
Definition VMAPermission_None : Z := 0.
Definition VMAPermission_ReadWrite : Z := 3.

(** [a] grants nothing that [b] does not: bit by bit. *)
Definition perm_subset (a b : Z) : Prop :=
  forall i, 0 <= i -> Z.testbit a i = true -> Z.testbit b i = true.

(** The test of the source, [a & ~b] on [u32], as a boolean. *)
Definition perm_exceeds (a b : Z) : bool :=
  negb (Z.land a (u32 (Z.lnot b)) =? 0).

(** ** Memory states and areas *)

(** The values of [MemoryState] that shared_memory.cpp names. *)
Inductive MemoryState : Type :=
  | MemoryState_Private
  | MemoryState_Shared
  | MemoryState_Locked.

#[global] Instance MemoryState_eq_dec : EqDecision MemoryState.
Proof. solve_decision. Defined.

(** Modelled from the spec: [enum class VMAType] of vm_manager.h, which is
    not at hand. The code only asks whether an area is [VMAType::Free], the
    unallocated kind; the other two stand for the allocated kinds. *)
Inductive VMAType : Type :=
  | VMAType_Free
  | VMAType_BackingMemory
  | VMAType_MMIO.

#[global] Instance VMAType_eq_dec : EqDecision VMAType.
Proof. solve_decision. Defined.

(** What [Map] reads of a [VirtualMemoryArea]. *)
Record VirtualMemoryArea : Type := {
  vma_type : VMAType;
  vma_base : Z;
  vma_size : Z
}.

(** ** Interval sets *)

(** [MemoryRegionInfo::Interval]: right-open, [lower, upper). *)
Definition Interval : Type := (Z * Z)%type.
Definition lower (i : Interval) : Z := fst i.
Definition upper (i : Interval) : Z := snd i.

(** Modelled from the spec: [MemoryRegionInfo::IntervalSet], the set of
    half-open physical intervals of section 3 (a
    [boost::icl::interval_set<u32>] in kernel/memory.h): its intervals in
    increasing order, none empty, no two overlapping or touching. *)
Definition IntervalSet : Type := list Interval.

Fixpoint interval_join (iv : Interval) (s : IntervalSet) : IntervalSet :=
  match s with
  | [] => [iv]
  | j :: s' =>
      if upper iv <? lower j then iv :: j :: s'
      else if upper j <? lower iv then j :: interval_join iv s'
      else interval_join (Z.min (lower iv) (lower j), Z.max (upper iv) (upper j)) s'
  end.

(** [s += iv]: an empty interval adds nothing. *)
Definition interval_set_add (s : IntervalSet) (iv : Interval) : IntervalSet :=
  if lower iv <? upper iv then interval_join iv s else s.

(** ** Collaborators *)

(** The layout constants of core/memory.h and the [DontCare] sentinel of
    [MemoryPermission]: their values are not at hand, so the development is
    parametric in them. *)
Class MemoryLayout : Type := {
  HEAP_VADDR : Z;
  SHARED_MEMORY_VADDR_END : Z;
  LINEAR_HEAP_VADDR : Z;
  MemoryPermission_DontCare : Z
}.

(** [MemoryRegionInfo] (core/hle/kernel/memory.h), as section 6 lists it. *)
Class MemoryRegionOps : Type := {
  MemoryRegion : Type;
  MemoryRegion_eq_dec :: EqDecision MemoryRegion;
  MemoryRegion_SYSTEM : MemoryRegion;
  MemoryRegionInfo : Type;
  (** [std::optional<u32> LinearAllocate(u32 size)] *)
  LinearAllocate : MemoryRegionInfo -> Z -> option Z * MemoryRegionInfo;
  (** [IntervalSet HeapAllocate(u32 size)], empty on failure *)
  HeapAllocate : MemoryRegionInfo -> Z -> IntervalSet * MemoryRegionInfo;
  (** [void Free(u32 offset, u32 size)] *)
  Free : MemoryRegionInfo -> Z -> Z -> MemoryRegionInfo
}.

(** [VMManager] (core/hle/kernel/vm_manager.h), as section 6 lists it. A
    backing block is a host pointer into FCRAM (here: its offset) and a
    length. *)
Class VMManagerOps : Type := {
  VMManager : Type;
  VMAHandle : Type;
  FindVMA : VMManager -> Z -> VirtualMemoryArea;
  ChangeMemoryState :
    VMManager -> Z -> Z -> MemoryState -> Z -> MemoryState -> Z ->
    ResultCode * VMManager;
  GetBackingBlocksForRange :
    VMManager -> Z -> Z -> ResultVal (list (Z * Z));
  MapBackingMemory :
    VMManager -> Z -> Z -> Z -> MemoryState -> ResultVal VMAHandle * VMManager;
  Reprotect : VMManager -> VMAHandle -> Z -> VMManager;
  UnmapRange : VMManager -> Z -> Z -> ResultCode * VMManager
}.

(** ** The object and the state around it *)

Section SharedMemory.

Context `{Layout : MemoryLayout} `{Regions : MemoryRegionOps} `{VM : VMManagerOps}.

(** [Process]: the two members shared_memory.cpp touches. *)
Record Process : Type := {
  vm_manager : VMManager;
  memory_used : Z
}.

(** A [Process*]: the address of a process object; [None] is [nullptr]. *)
Definition ProcessPtr : Type := nat.

(** The members of [SharedMemory] (shared_memory.h). A freshly constructed
    object has every numeric member 0 and every container empty. *)
Record SharedMemory : Type := {
  owner_process : option ProcessPtr;
  name : string;
  size : Z;
  permissions : Z;
  other_permissions : Z;
  base_address : Z;
  backing_blocks : list (Z * Z);
  holding_memory : IntervalSet;
  linear_heap_phys_offset : Z
}.

(** What of [KernelSystem] and of the heap the code reads and writes: the
    region allocators behind [GetMemoryRegion], the bytes of [memory.fcram]
    and the process objects that pointers lead to. *)
Record KernelSystem : Type := {
  memory_regions : MemoryRegion -> MemoryRegionInfo;
  fcram : Z -> Z;
  processes : gmap nat Process
}.

Definition set_memory_region (k : KernelSystem) (region : MemoryRegion)
    (info : MemoryRegionInfo) : KernelSystem :=
  {| memory_regions := fun r => if decide (r = region) then info else memory_regions k r;
     fcram := fcram k;
     processes := processes k |}.

Definition set_fcram (k : KernelSystem) (mem : Z -> Z) : KernelSystem :=
  {| memory_regions := memory_regions k; fcram := mem; processes := processes k |}.

Definition set_process (k : KernelSystem) (p : ProcessPtr) (proc : Process) : KernelSystem :=
  {| memory_regions := memory_regions k;
     fcram := fcram k;
     processes := <[p := proc]> (processes k) |}.

Definition set_vm_manager (proc : Process) (vm : VMManager) : Process :=
  {| vm_manager := vm; memory_used := memory_used proc |}.

(** [std::fill(fcram.data() + first, fcram.data() + last, 0)] *)
Definition fill_zero (mem : Z -> Z) (first last : Z) : Z -> Z :=
  fun a => if (first <=? a) && (a <? last) then 0 else mem a.

(** ** [SharedMemory::ConvertPermissions] (lines 186-190) *)

Definition ConvertPermissions (permission : Z) : Z :=
  Z.land permission MemoryPermission_ReadWriteExecute.

(** ** [SharedMemory::~SharedMemory] (lines 15-25) *)

(** One turn of the loop of lines 16-19. *)
Definition free_interval (k : KernelSystem) (interval : Interval) : KernelSystem :=
  set_memory_region k MemoryRegion_SYSTEM
    (Free (memory_regions k MemoryRegion_SYSTEM)
          (lower interval) (u32 (upper interval - lower interval))).

(** A call of [ChangeMemoryState], by its arguments: the range, the state
    and protection the range is expected in, and those it is given. *)
Record StateChange : Type := {
  change_address : Z;
  change_size : Z;
  expected_state : MemoryState;
  expected_perms : Z;
  new_state : MemoryState;
  new_perms : Z
}.

Definition apply_change (c : StateChange) (vm : VMManager) : ResultCode * VMManager :=
  ChangeMemoryState vm (change_address c) (change_size c)
    (expected_state c) (expected_perms c) (new_state c) (new_perms c).

(** The restoring state change of lines 21-23, on the owner's manager. *)
Definition restore_change (self : SharedMemory) : StateChange :=
  {| change_address := base_address self; change_size := size self;
     expected_state := MemoryState_Locked; expected_perms := VMAPermission_None;
     new_state := MemoryState_Private; new_perms := VMAPermission_ReadWrite |}.

Definition restore_owner_range (self : SharedMemory) (vm : VMManager) : ResultCode * VMManager :=
  apply_change (restore_change self) vm.

Definition SharedMemory_dtor (self : SharedMemory) (k : KernelSystem) : Outcome KernelSystem :=
  let k := foldl free_interval k (holding_memory self) in
  if negb (base_address self =? 0) then
    match owner_process self with
    | Some p =>
        match processes k !! p with
        | Some proc =>
            Return (set_process k p
                      (set_vm_manager proc (snd (restore_owner_range self (vm_manager proc)))))
        | None => InvalidDeref
        end
    | None => Return k
    end
  else Return k.

(** ** [KernelSystem::CreateSharedMemory] (lines 27-70) *)

(** The object after lines 30-36. *)
Definition new_SharedMemory (owner : option ProcessPtr) (name' : string)
    (size' permissions' other_permissions' : Z) : SharedMemory :=
  {| owner_process := owner; name := name'; size := size';
     permissions := permissions'; other_permissions := other_permissions';
     base_address := 0; backing_blocks := []; holding_memory := [];
     linear_heap_phys_offset := 0 |}.

(** Lines 46-49: the members the fresh-allocation branch writes. *)
Definition with_fresh_storage (sm : SharedMemory) (offset : Z) : SharedMemory :=
  {| owner_process := owner_process sm; name := name sm; size := size sm;
     permissions := permissions sm; other_permissions := other_permissions sm;
     base_address := base_address sm;
     backing_blocks := [(offset, size sm)];
     holding_memory :=
       interval_set_add (holding_memory sm) (offset, u32 (offset + size sm));
     linear_heap_phys_offset := offset |}.

Definition with_backing_blocks (sm : SharedMemory) (blocks : list (Z * Z)) : SharedMemory :=
  {| owner_process := owner_process sm; name := name sm; size := size sm;
     permissions := permissions sm; other_permissions := other_permissions sm;
     base_address := base_address sm;
     backing_blocks := blocks;
     holding_memory := holding_memory sm;
     linear_heap_phys_offset := linear_heap_phys_offset sm |}.

Definition with_base_address (sm : SharedMemory) (address : Z) : SharedMemory :=
  {| owner_process := owner_process sm; name := name sm; size := size sm;
     permissions := permissions sm; other_permissions := other_permissions sm;
     base_address := address;
     backing_blocks := backing_blocks sm;
     holding_memory := holding_memory sm;
     linear_heap_phys_offset := linear_heap_phys_offset sm |}.

(** Lines 52-54: [owner_process->memory_used += size], skipped for a null
    owner. *)
Definition charge_owner (k : KernelSystem) (owner : option ProcessPtr) (size' : Z)
  : Outcome KernelSystem :=
  match owner with
  | None => Return k
  | Some p =>
      match processes k !! p with
      | Some proc =>
          Return (set_process k p
                    {| vm_manager := vm_manager proc;
                       memory_used := u32 (memory_used proc + size') |})
      | None => InvalidDeref
      end
  end.

(** The state change of lines 59-61, on the owner's manager. *)
Definition lock_change (address size' permissions' : Z) : StateChange :=
  {| change_address := address; change_size := size';
     expected_state := MemoryState_Private; expected_perms := VMAPermission_ReadWrite;
     new_state := MemoryState_Locked; new_perms := ConvertPermissions permissions' |}.

Definition lock_owner_range (address size' permissions' : Z) (vm : VMManager)
  : ResultCode * VMManager :=
  apply_change (lock_change address size' permissions') vm.

Definition CreateSharedMemory (k : KernelSystem) (owner : option ProcessPtr)
    (size' permissions' other_permissions' address : Z)
    (region : MemoryRegion) (name' : string)
  : Outcome (ResultVal SharedMemory * KernelSystem) :=
  let shared_memory := new_SharedMemory owner name' size' permissions' other_permissions' in
  if address =? 0 then
    let '(offset, info) := LinearAllocate (memory_regions k region) size' in
    let k := set_memory_region k region info in
    match offset with
    | None => AssertFailed
    | Some offset =>
        let k := set_fcram k (fill_zero (fcram k) offset (offset + size')) in
        let shared_memory := with_fresh_storage shared_memory offset in
        k ← charge_owner k (owner_process shared_memory) size';
        Return (MakeResult (with_base_address shared_memory address), k)
    end
  else
    match owner_process shared_memory with
    | None => InvalidDeref
    | Some p =>
        match processes k !! p with
        | None => InvalidDeref
        | Some proc =>
            let '(code, vm) :=
              lock_owner_range address size' permissions' (vm_manager proc) in
            let k := set_process k p (set_vm_manager proc vm) in
            if IsError code then
              (* CASCADE_CODE returns; the object dies with the scope *)
              k ← SharedMemory_dtor shared_memory k;
              Return (ErrorResult code, k)
            else
              match GetBackingBlocksForRange vm address size' with
              | ErrorResult _ => AssertFailed
              | MakeResult blocks =>
                  Return (MakeResult
                            (with_base_address
                               (with_backing_blocks shared_memory blocks) address), k)
              end
        end
    end.

(** ** [KernelSystem::CreateSharedMemoryForApplet] (lines 72-96) *)

(** The loop of lines 87-92: one backing block per interval, zero-filled. *)
Definition applet_block (acc : list (Z * Z) * (Z -> Z)) (interval : Interval)
  : list (Z * Z) * (Z -> Z) :=
  (fst acc ++ [(lower interval, u32 (upper interval - lower interval))],
   fill_zero (snd acc) (lower interval) (upper interval)).

Definition CreateSharedMemoryForApplet (k : KernelSystem)
    (offset size' permissions' other_permissions' : Z) (name' : string)
  : Outcome (SharedMemory * KernelSystem) :=
  let '(blocks, info) := HeapAllocate (memory_regions k MemoryRegion_SYSTEM) size' in
  let k := set_memory_region k MemoryRegion_SYSTEM info in
  _ ← ASSERT (negb (bool_decide (blocks = [])));
  let '(backing, mem) := foldl applet_block ([], fcram k) blocks in
  Return ({| owner_process := None; name := name'; size := size';
             permissions := permissions'; other_permissions := other_permissions';
             base_address := u32 (HEAP_VADDR + offset);
             backing_blocks := backing;
             holding_memory := blocks;
             linear_heap_phys_offset := 0 |},
          set_fcram k mem).

(** ** [SharedMemory::Map] (lines 98-178) *)

(** Lines 101-102. [target] is [&target_process]. *)
Definition own_other_permissions (self : SharedMemory) (target : ProcessPtr) : Z :=
  if decide (Some target = owner_process self)
  then permissions self else other_permissions self.

(** Lines 104-129: the four permission checks, in the order of the source. *)
Definition check_permissions (self : SharedMemory) (target : ProcessPtr)
    (permissions' other_permissions' : Z) : option ResultCode :=
  if (base_address self =? 0) && negb (other_permissions' =? MemoryPermission_DontCare)
  then Some ERR_INVALID_COMBINATION
  else if perm_exceeds permissions' (own_other_permissions self target)
  then Some ERR_INVALID_COMBINATION
  else if negb (base_address self =? 0) && (other_permissions' =? MemoryPermission_DontCare)
  then Some ERR_INVALID_COMBINATION
  else if negb (other_permissions' =? MemoryPermission_DontCare)
          && perm_exceeds (permissions self) other_permissions'
  then Some ERR_WRONG_PERMISSION
  else None.

(** Lines 140-146. *)
Definition check_address (self : SharedMemory) (address : Z) : option ResultCode :=
  if negb (address =? 0)
     && ((address <? HEAP_VADDR)
         || (SHARED_MEMORY_VADDR_END <=? u32 (address + size self)))
  then Some ERR_INVALID_ADDRESS
  else None.

(** Lines 148-156: where the block goes. *)
Definition target_address (self : SharedMemory) (address : Z) : Z :=
  if (base_address self =? 0) && (address =? 0)
  then u32 (linear_heap_phys_offset self + LINEAR_HEAP_VADDR)
  else address.

(** Lines 159-165, on the area [FindVMA] returned. *)
Definition check_vma (self : SharedMemory) (vma : VirtualMemoryArea) (target : Z)
  : option ResultCode :=
  if negb (bool_decide (vma_type vma = VMAType_Free))
     || (u32 (vma_base vma + vma_size vma) <? u32 (target + size self))
  then Some ERR_INVALID_ADDRESS_STATE
  else None.

(** Lines 168-175: bind every backing block, one after the other. *)
Fixpoint map_blocks (vm : VMManager) (interval_target permissions' : Z)
    (blocks : list (Z * Z)) : Outcome VMManager :=
  match blocks with
  | [] => Return vm
  | interval :: rest =>
      let '(vma, vm) :=
        MapBackingMemory vm interval_target (fst interval) (snd interval)
                         MemoryState_Shared in
      match vma with
      | ErrorResult _ => AssertFailed
      | MakeResult handle =>
          let vm := Reprotect vm handle (ConvertPermissions permissions') in
          map_blocks vm (u32 (interval_target + snd interval)) permissions' rest
      end
  end.

(** [Map] writes to [*this] and to [target_process]; both are handed back
    with the code. *)
Definition Map (self : SharedMemory) (target : ProcessPtr) (target_process : Process)
    (address permissions' other_permissions' : Z)
  : Outcome (ResultCode * (SharedMemory * Process)) :=
  match check_permissions self target permissions' other_permissions' with
  | Some err => Return (err, (self, target_process))
  | None =>
  match check_address self address with
  | Some err => Return (err, (self, target_process))
  | None =>
      let target_address := target_address self address in
      let vma := FindVMA (vm_manager target_process) target_address in
      match check_vma self vma target_address with
      | Some err => Return (err, (self, target_process))
      | None =>
          vm ← map_blocks (vm_manager target_process) target_address permissions'
                          (backing_blocks self);
          Return (RESULT_SUCCESS, (self, set_vm_manager target_process vm))
      end
  end
  end.

(** ** [SharedMemory::Unmap] (lines 180-184) *)

Definition Unmap (self : SharedMemory) (target_process : Process) (address : Z)
  : ResultCode * Process :=
  let '(code, vm) := UnmapRange (vm_manager target_process) address (size self) in
  (code, set_vm_manager target_process vm).

(** ** [SharedMemory::GetPointer] (lines 192-204) *)

(** [backing_blocks[0].first + offset]; indexing an empty vector is an
    invalid access. *)
Definition GetPointer (self : SharedMemory) (offset : Z) : Outcome Z :=
  match backing_blocks self with
  | [] => InvalidDeref
  | block :: _ => Return (fst block + offset)
  end.

(** ** Vocabulary of the properties *)

(** The code a call returned, if it returned. *)
Definition code_of {S : Type} (o : Outcome (ResultCode * S)) : option ResultCode :=
  match o with
  | Return (code, _) => Some code
  | _ => None
  end.

Definition Map_code (self : SharedMemory) (target : ProcessPtr) (target_process : Process)
    (address permissions' other_permissions' : Z) : option ResultCode :=
  code_of (Map self target target_process address permissions' other_permissions').

(** The area is unallocated and [target, target + size') lies inside it. *)
Definition free_and_contains (vma : VirtualMemoryArea) (target size' : Z) : Prop :=
  vma_type vma = VMAType_Free /\
  vma_base vma <= target /\
  target + size' <= vma_base vma + vma_size vma.

(** [address, address + size') lies in the band in which shared memory may
    be mapped, from [HEAP_VADDR] up to [SHARED_MEMORY_VADDR_END]. *)
Definition in_shared_memory_band (address size' : Z) : Prop :=
  HEAP_VADDR <= address /\ address + size' <= SHARED_MEMORY_VADDR_END.

(** A whole life: the object is created and its last reference dropped at
    once. *)
Definition create_then_destroy (k : KernelSystem) (owner : option ProcessPtr)
    (size' permissions' other_permissions' address : Z)
    (region : MemoryRegion) (name' : string) : Outcome KernelSystem :=
  created ← CreateSharedMemory k owner size' permissions' other_permissions'
                               address region name';
  match fst created with
  | MakeResult sm => SharedMemory_dtor sm (snd created)
  | ErrorResult _ => Return (snd created)
  end.

(** How an object came to be. *)
Inductive Provenance : Type :=
  | FreshAllocation      (* CreateSharedMemory, address == 0 *)
  | BorrowedMapping      (* CreateSharedMemory, address != 0 *)
  | AppletAllocation.    (* CreateSharedMemoryForApplet *)

(** The kernel allocated the storage itself. *)
Definition freshly_allocated (p : Provenance) : Prop := p <> BorrowedMapping.

Definition created_by (p : Provenance) (sm : SharedMemory) : Prop :=
  match p with
  | FreshAllocation =>
      exists k owner size' perms other region name' k',
        CreateSharedMemory k owner size' perms other 0 region name'
        = Return (MakeResult sm, k')
  | BorrowedMapping =>
      exists k owner size' perms other address region name' k',
        address <> 0 /\
        CreateSharedMemory k owner size' perms other address region name'
        = Return (MakeResult sm, k')
  | AppletAllocation =>
      exists k offset size' perms other name' k',
        CreateSharedMemoryForApplet k offset size' perms other name'
        = Return (sm, k')
  end.

(** *** Four statements of the specification, word for word

    Each is compared below with what the code does. *)

(** Permission subset law: success needs both inclusions; breaking the
    first gives [ERR_INVALID_COMBINATION], breaking the second
    [ERR_WRONG_PERMISSION]. *)
Definition permission_law_as_written : Prop :=
  forall self target proc address perms other,
    is_u32 perms -> is_u32 (permissions self) ->
    (Map_code self target proc address perms other = Some RESULT_SUCCESS ->
       perm_subset perms (own_other_permissions self target) /\
       (other <> MemoryPermission_DontCare -> perm_subset (permissions self) other))
    /\ (~ perm_subset perms (own_other_permissions self target) ->
        Map_code self target proc address perms other = Some ERR_INVALID_COMBINATION)
    /\ (other <> MemoryPermission_DontCare -> ~ perm_subset (permissions self) other ->
        Map_code self target proc address perms other = Some ERR_WRONG_PERMISSION).

(** Address containment: once the permission checks pass, success needs a
    free area around the block, and anything else is
    [ERR_INVALID_ADDRESS_STATE]. *)
Definition address_containment_as_written : Prop :=
  forall self target proc address perms other,
    check_permissions self target perms other = None ->
    let target_address := target_address self address in
    let vma := FindVMA (vm_manager proc) target_address in
    (Map_code self target proc address perms other = Some RESULT_SUCCESS ->
       free_and_contains vma target_address (size self))
    /\ (~ free_and_contains vma target_address (size self) ->
        Map_code self target proc address perms other = Some ERR_INVALID_ADDRESS_STATE).

(** Storage invariant: [base_address] is 0 exactly for kernel-allocated
    storage, [holding_memory] is empty exactly for borrowed storage. *)
Definition storage_invariant_as_written : Prop :=
  forall p sm, created_by p sm ->
    (base_address sm = 0 <-> freshly_allocated p) /\
    (holding_memory sm = [] <-> ~ freshly_allocated p).

(** Band check: with a nonzero address, [ERR_INVALID_ADDRESS] exactly when
    the block leaves the band. *)
Definition band_check_as_written : Prop :=
  forall self target proc address perms other,
    address <> 0 -> is_u32 address -> is_u32 (size self) ->
    (Map_code self target proc address perms other = Some ERR_INVALID_ADDRESS
     <-> ~ in_shared_memory_band address (size self)).

(** The bytes a run of backing blocks takes: the sum of their lengths. *)
Fixpoint block_lengths (blocks : list (Z * Z)) : Z :=
  match blocks with
  | [] => 0
  | block :: rest => snd block + block_lengths rest
  end.

End SharedMemory.

(** ** Reference collaborators

    Small implementations of the three interfaces, to run the model on
    concrete calls. No theorem about [Map], creation or destruction depends
    on them: they only supply the inputs of the examples. *)

(** The memory map of the emulated console: the heap starts at 0x08000000,
    the shared-memory band ends at 0x14000000, where the linear heap
    starts; [DontCare] is bit 28. *)
Definition console_layout : MemoryLayout :=
  {| HEAP_VADDR := 0x08000000;
     SHARED_MEMORY_VADDR_END := 0x14000000;
     LINEAR_HEAP_VADDR := 0x14000000;
     MemoryPermission_DontCare := 0x10000000 |}.

(** Modelled from the spec: the named physical pools of the glossary. *)
Inductive region_name : Type := APPLICATION | SYSTEM | BASE.

#[global] Instance region_name_eq_dec : EqDecision region_name.
Proof. solve_decision. Defined.

(** Modelled from the spec: a region allocator with the interface of
    section 6. It hands out storage from [bump_next] upwards, one interval
    per request, and keeps the list of the blocks freed into it. *)
Record bump_region : Type := {
  bump_next : Z;
  bump_limit : Z;
  bump_freed : list (Z * Z)
}.

Definition bump_take (r : bump_region) (size' : Z) : bump_region :=
  {| bump_next := bump_next r + size';
     bump_limit := bump_limit r;
     bump_freed := bump_freed r |}.

Definition bump_LinearAllocate (r : bump_region) (size' : Z) : option Z * bump_region :=
  if bump_next r + size' <=? bump_limit r
  then (Some (bump_next r), bump_take r size')
  else (None, r).

Definition bump_HeapAllocate (r : bump_region) (size' : Z) : IntervalSet * bump_region :=
  if (0 <? size') && (bump_next r + size' <=? bump_limit r)
  then ([(bump_next r, bump_next r + size')], bump_take r size')
  else ([], r).

Definition bump_Free (r : bump_region) (offset size' : Z) : bump_region :=
  {| bump_next := bump_next r;
     bump_limit := bump_limit r;
     bump_freed := bump_freed r ++ [(offset, size')] |}.

Definition bump_regions : MemoryRegionOps :=
  {| MemoryRegion := region_name;
     MemoryRegion_SYSTEM := SYSTEM;
     MemoryRegionInfo := bump_region;
     LinearAllocate := bump_LinearAllocate;
     HeapAllocate := bump_HeapAllocate;
     Free := bump_Free |}.

(** Modelled from the spec: an address-space manager with the interface of
    section 6. The address space is a list of areas in increasing order; an
    operation on a range that is not exactly one area is refused, except for
    [MapBackingMemory], which carves the new area out of a free one. *)
Record flat_area : Type := {
  area_type : VMAType;
  area_base : Z;
  area_size : Z;
  area_state : MemoryState;
  area_permissions : Z;
  area_backing : Z
}.

Definition flat_free (base' size' : Z) : flat_area :=
  {| area_type := VMAType_Free; area_base := base'; area_size := size';
     area_state := MemoryState_Private; area_permissions := 0; area_backing := 0 |}.

Definition flat_covers (target : Z) (a : flat_area) : bool :=
  (area_base a <=? target) && (target <? area_base a + area_size a).

Definition flat_is (target size' : Z) (a : flat_area) : bool :=
  (area_base a =? target) && (area_size a =? size')
  && negb (bool_decide (area_type a = VMAType_Free)).

Definition flat_find (vm : list flat_area) (target : Z) : option flat_area :=
  List.find (flat_covers target) vm.

Definition flat_FindVMA (vm : list flat_area) (target : Z) : VirtualMemoryArea :=
  match flat_find vm target with
  | Some a => {| vma_type := area_type a; vma_base := area_base a; vma_size := area_size a |}
  | None => {| vma_type := VMAType_MMIO; vma_base := 0; vma_size := 0 |}
  end.

Definition flat_retag (a : flat_area) (state : MemoryState) (perm : Z) : flat_area :=
  {| area_type := area_type a; area_base := area_base a; area_size := area_size a;
     area_state := state; area_permissions := perm; area_backing := area_backing a |}.

Definition flat_ChangeMemoryState (vm : list flat_area) (target size' : Z)
    (expected_state : MemoryState) (expected_perms : Z)
    (new_state : MemoryState) (new_perms : Z) : ResultCode * list flat_area :=
  match flat_find vm target with
  | Some a =>
      if flat_is target size' a
         && bool_decide (area_state a = expected_state)
         && (Z.land (area_permissions a) expected_perms =? expected_perms)
      then (RESULT_SUCCESS,
            List.map (fun b => if flat_is target size' b
                               then flat_retag b new_state new_perms else b) vm)
      else (ERR_INVALID_ADDRESS_STATE, vm)
  | None => (ERR_INVALID_ADDRESS_STATE, vm)
  end.

Definition flat_GetBackingBlocksForRange (vm : list flat_area) (target size' : Z)
  : ResultVal (list (Z * Z)) :=
  match flat_find vm target with
  | Some a =>
      if flat_is target size' a then MakeResult [(area_backing a, size')]
      else ErrorResult ERR_INVALID_ADDRESS_STATE
  | None => ErrorResult ERR_INVALID_ADDRESS_STATE
  end.

(** The free area [a] with the block [target, target + size') cut out. *)
Definition flat_carve (a : flat_area) (target size' : Z) (state : MemoryState)
    (memory : Z) : list flat_area :=
  (if area_base a <? target then [flat_free (area_base a) (target - area_base a)] else [])
  ++ [{| area_type := VMAType_BackingMemory; area_base := target; area_size := size';
         area_state := state; area_permissions := VMAPermission_ReadWrite;
         area_backing := memory |}]
  ++ (if target + size' <? area_base a + area_size a
      then [flat_free (target + size') (area_base a + area_size a - (target + size'))]
      else []).

Definition flat_MapBackingMemory (vm : list flat_area) (target memory size' : Z)
    (state : MemoryState) : ResultVal Z * list flat_area :=
  match flat_find vm target with
  | Some a =>
      if bool_decide (area_type a = VMAType_Free)
         && (0 <? size') && (target + size' <=? area_base a + area_size a)
      then (MakeResult target,
            List.concat
              (List.map (fun b => if area_base b =? area_base a
                                  then flat_carve a target size' state memory
                                  else [b]) vm))
      else (ErrorResult ERR_INVALID_ADDRESS_STATE, vm)
  | None => (ErrorResult ERR_INVALID_ADDRESS, vm)
  end.

Definition flat_Reprotect (vm : list flat_area) (handle : Z) (new_perms : Z)
  : list flat_area :=
  List.map (fun b => if area_base b =? handle
                     then flat_retag b (area_state b) new_perms else b) vm.

Definition flat_UnmapRange (vm : list flat_area) (target size' : Z)
  : ResultCode * list flat_area :=
  match flat_find vm target with
  | Some a =>
      if flat_is target size' a
      then (RESULT_SUCCESS,
            List.map (fun b => if flat_is target size' b
                               then flat_free target size' else b) vm)
      else (ERR_INVALID_ADDRESS_STATE, vm)
  | None => (ERR_INVALID_ADDRESS_STATE, vm)
  end.

Definition flat_vm : VMManagerOps :=
  {| VMManager := list flat_area;
     VMAHandle := Z;
     FindVMA := flat_FindVMA;
     ChangeMemoryState := flat_ChangeMemoryState;
     GetBackingBlocksForRange := flat_GetBackingBlocksForRange;
     MapBackingMemory := flat_MapBackingMemory;
     Reprotect := flat_Reprotect;
     UnmapRange := flat_UnmapRange |}.

(** An address space of 2 GiB with one page of code at 0x00100000 and one
    page of private read-write heap at 0x08000000, backed by FCRAM offset
    0x2000. *)
Definition sample_vm : list flat_area :=
  [ flat_free 0 0x00100000;
    {| area_type := VMAType_BackingMemory; area_base := 0x00100000; area_size := 0x1000;
       area_state := MemoryState_Private; area_permissions := 5; area_backing := 0x1000 |};
    flat_free 0x00101000 (0x08000000 - 0x00101000);
    {| area_type := VMAType_BackingMemory; area_base := 0x08000000; area_size := 0x1000;
       area_state := MemoryState_Private; area_permissions := 3; area_backing := 0x2000 |};
    flat_free 0x08001000 (0x80000000 - 0x08001000) ].

Definition sample_process : Process (VM := flat_vm) :=
  @Build_Process flat_vm sample_vm 0.

Definition sample_region : bump_region :=
  {| bump_next := 0; bump_limit := 0x08000000; bump_freed := [] |}.

(** A kernel with two processes, at addresses 1 and 2. *)
Definition sample_kernel : KernelSystem (Regions := bump_regions) (VM := flat_vm) :=
  @Build_KernelSystem bump_regions flat_vm
    (fun _ => sample_region)
    (fun _ => 0xFF)
    (<[1%nat := sample_process]> (<[2%nat := sample_process]> ∅)).

(** The object [CreateSharedMemory] makes for process 1 out of 4 KiB of a
    pristine region, and the one it makes of the heap page of process 1. *)
Definition sample_fresh : SharedMemory :=
  {| owner_process := Some 1%nat; name := "fresh"; size := 0x1000;
     permissions := MemoryPermission_ReadWrite;
     other_permissions := 0x10000000;
     base_address := 0;
     backing_blocks := [(0, 0x1000)];
     holding_memory := [(0, 0x1000)];
     linear_heap_phys_offset := 0 |}.

Definition sample_borrowed : SharedMemory :=
  {| owner_process := Some 1%nat; name := "borrowed"; size := 0x1000;
     permissions := MemoryPermission_ReadWrite;
     other_permissions := MemoryPermission_Read;
     base_address := 0x08000000;
     backing_blocks := [(0x2000, 0x1000)];
     holding_memory := [];
     linear_heap_phys_offset := 0 |}.

(** The object [CreateSharedMemoryForApplet] makes, at offset 0, out of
    4 KiB of a pristine SYSTEM region. *)
Definition sample_applet : SharedMemory :=
  {| owner_process := None; name := "applet"; size := 0x1000;
     permissions := MemoryPermission_ReadWrite;
     other_permissions := MemoryPermission_ReadWrite;
     base_address := 0x08000000;
     backing_blocks := [(0, 0x1000)];
     holding_memory := [(0, 0x1000)];
     linear_heap_phys_offset := 0 |}.

(** The sample kernel once the heap page of process 1 has been lent to
    [sample_borrowed]. *)
Definition lending_kernel : KernelSystem (Regions := bump_regions) (VM := flat_vm) :=
  set_process sample_kernel 1%nat
    (set_vm_manager sample_process
       (snd (lock_owner_range (VM := flat_vm)
               0x08000000 0x1000 MemoryPermission_ReadWrite sample_vm))).

(** The object [CreateSharedMemory] makes, without an owner, of 0 bytes of
    a pristine SYSTEM region. *)
Definition sample_empty : SharedMemory :=
  {| owner_process := None; name := "empty"; size := 0;
     permissions := MemoryPermission_ReadWrite;
     other_permissions := 0x10000000;
     base_address := 0;
     backing_blocks := [(0, 0)];
     holding_memory := [];
     linear_heap_phys_offset := 0 |}.

(** The lending kernel after process 1 has exited: [sample_borrowed] still
    points at address 1, where no process is any more. *)
Definition orphaned_kernel : KernelSystem (Regions := bump_regions) (VM := flat_vm) :=
  @Build_KernelSystem bump_regions flat_vm
    (memory_regions lending_kernel)
    (fcram lending_kernel)
    (delete 1%nat (processes lending_kernel)).

(** * Properties *)

(** ** Machine arithmetic *)

Lemma u32_range z : is_u32 (u32 z).
Proof. unfold is_u32, u32. apply Z.mod_pos_bound. lia. Qed.

Lemma u32_small z : is_u32 z -> u32 z = z.
Proof. unfold is_u32, u32. intros Hz. apply Z.mod_small. lia. Qed.

Lemma u32_testbit z i :
  0 <= i -> Z.testbit (u32 z) i = (i <? 32) && Z.testbit z i.
Proof.
  intros Hi. unfold u32. destruct (Z.ltb_spec i 32).
  - rewrite Z.mod_pow2_bits_low by lia. reflexivity.
  - rewrite Z.mod_pow2_bits_high by lia. reflexivity.
Qed.

Lemma is_u32_high_bits z i : is_u32 z -> 32 <= i -> Z.testbit z i = false.
Proof.
  intros Hz Hi. rewrite <- (u32_small z Hz), u32_testbit by lia.
  destruct (Z.ltb_spec i 32); [lia | reflexivity].
Qed.

(** The bit test of the source decides inclusion of permission sets. *)
Lemma perm_exceeds_false a b :
  is_u32 a -> perm_exceeds a b = false <-> perm_subset a b.
Proof.
  intros Ha. unfold perm_exceeds, perm_subset.
  rewrite negb_false_iff, Z.eqb_eq. split.
  - intros Hland i Hi Hai.
    assert (Hbit : Z.testbit (Z.land a (u32 (Z.lnot b))) i = false)
      by (rewrite Hland; apply Z.bits_0).
    rewrite Z.land_spec, Hai, u32_testbit, Z.lnot_spec in Hbit by lia.
    destruct (Z.ltb_spec i 32) as [_|Hhigh].
    + destruct (Z.testbit b i); [reflexivity | discriminate].
    + rewrite (is_u32_high_bits a i Ha Hhigh) in Hai. discriminate.
  - intros Hsub. apply Z.bits_inj'. intros i Hi.
    rewrite Z.bits_0, Z.land_spec, u32_testbit, Z.lnot_spec by lia.
    destruct (Z.testbit a i) eqn:Hai; [| reflexivity].
    rewrite (Hsub i Hi Hai). simpl. apply andb_false_r.
Qed.

Lemma perm_exceeds_true a b :
  is_u32 a -> perm_exceeds a b = true <-> ~ perm_subset a b.
Proof.
  intros Ha. rewrite <- (perm_exceeds_false a b Ha).
  destruct (perm_exceeds a b); split; congruence.
Qed.

Section Properties.

Context `{Layout : MemoryLayout} `{Regions : MemoryRegionOps} `{VM : VMManagerOps}.

Implicit Types (self : SharedMemory) (target : ProcessPtr) (proc : Process).

(** ** The checks of [Map], one by one *)

Lemma check_permissions_error self target perms other err :
  check_permissions self target perms other = Some err ->
  err = ERR_INVALID_COMBINATION \/ err = ERR_WRONG_PERMISSION.
Proof.
  unfold check_permissions. intros Hc.
  repeat match type of Hc with
         | (if ?c then _ else _) = _ => destruct c
         end; inversion Hc; auto.
Qed.

Lemma check_address_error self address err :
  check_address self address = Some err -> err = ERR_INVALID_ADDRESS.
Proof.
  unfold check_address. destruct (_ && _); intros Hc; inversion Hc; reflexivity.
Qed.

Lemma check_vma_error self vma t err :
  check_vma self vma t = Some err -> err = ERR_INVALID_ADDRESS_STATE.
Proof.
  unfold check_vma. destruct (_ || _); intros Hc; inversion Hc; reflexivity.
Qed.

(** [Map] returns the code of the first check that fails. *)
Lemma Map_permission_error self target proc address perms other err :
  check_permissions self target perms other = Some err ->
  Map self target proc address perms other = Return (err, (self, proc)).
Proof. intros Hc. unfold Map. rewrite Hc. reflexivity. Qed.

Lemma Map_address_error self target proc address perms other err :
  check_permissions self target perms other = None ->
  check_address self address = Some err ->
  Map self target proc address perms other = Return (err, (self, proc)).
Proof. intros Hp Ha. unfold Map. rewrite Hp, Ha. reflexivity. Qed.

Lemma Map_vma_error self target proc address perms other err :
  check_permissions self target perms other = None ->
  check_address self address = None ->
  check_vma self (FindVMA (vm_manager proc) (target_address self address))
            (target_address self address) = Some err ->
  Map self target proc address perms other = Return (err, (self, proc)).
Proof. intros Hp Ha Hv. unfold Map. rewrite Hp, Ha, Hv. reflexivity. Qed.

(** Past the three checks, [Map] binds the blocks: it succeeds or an
    [ASSERT] fails. *)
Lemma Map_checks_passed self target proc address perms other :
  check_permissions self target perms other = None ->
  check_address self address = None ->
  check_vma self (FindVMA (vm_manager proc) (target_address self address))
            (target_address self address) = None ->
  Map self target proc address perms other =
    vm ← map_blocks (vm_manager proc) (target_address self address) perms
                    (backing_blocks self);
    Return (RESULT_SUCCESS, (self, set_vm_manager proc vm)).
Proof. intros Hp Ha Hv. unfold Map. rewrite Hp, Ha, Hv. reflexivity. Qed.

(** A successful [Map] passed every check. *)
Lemma Map_success_checks self target proc address perms other :
  Map_code self target proc address perms other = Some RESULT_SUCCESS ->
  check_permissions self target perms other = None /\
  check_address self address = None /\
  check_vma self (FindVMA (vm_manager proc) (target_address self address))
            (target_address self address) = None.
Proof.
  unfold Map_code, Map. intros Hm.
  destruct (check_permissions self target perms other) as [e|] eqn:Hp.
  { apply check_permissions_error in Hp. simpl in Hm.
    destruct Hp; subst e; discriminate. }
  destruct (check_address self address) as [e|] eqn:Ha.
  { apply check_address_error in Ha. subst e. discriminate. }
  destruct (check_vma _ _ _) as [e|] eqn:Hv.
  { apply check_vma_error in Hv. subst e. discriminate. }
  auto.
Qed.

(** What it takes to pass the permission checks. *)
Lemma check_permissions_None self target perms other :
  check_permissions self target perms other = None <->
  (base_address self = 0 <-> other = MemoryPermission_DontCare) /\
  perm_exceeds perms (own_other_permissions self target) = false /\
  (other <> MemoryPermission_DontCare -> perm_exceeds (permissions self) other = false).
Proof.
  unfold check_permissions.
  destruct (Z.eqb_spec (base_address self) 0) as [Hb|Hb];
  destruct (Z.eqb_spec other MemoryPermission_DontCare) as [Ho|Ho];
  destruct (perm_exceeds perms _); simpl;
  try destruct (perm_exceeds (permissions self) other); simpl;
  split; try discriminate; intuition congruence.
Qed.

(** ** Permissions *)

(** C1, as the code has it: [Map] succeeds only if the requested
    permissions are included in the applicable default set and, when
    [other_permissions] is not [DontCare], the object's own permissions are
    included in it. Requesting more than the default set always gives
    [ERR_INVALID_COMBINATION]. An object whose permissions exceed the
    caller's [other_permissions] gives [ERR_WRONG_PERMISSION] when the object
    is borrowed ([base_address != 0]) and the request is within the default
    set; on a freshly allocated object, or with a request beyond the default
    set, the earlier checks answer [ERR_INVALID_COMBINATION]. *)
Theorem Map_permission_law self target proc address perms other :
  is_u32 perms -> is_u32 (permissions self) ->
  (Map_code self target proc address perms other = Some RESULT_SUCCESS ->
     perm_subset perms (own_other_permissions self target) /\
     (other <> MemoryPermission_DontCare -> perm_subset (permissions self) other))
  /\ (~ perm_subset perms (own_other_permissions self target) ->
      Map_code self target proc address perms other = Some ERR_INVALID_COMBINATION)
  /\ (other <> MemoryPermission_DontCare -> ~ perm_subset (permissions self) other ->
      (base_address self <> 0 ->
       perm_subset perms (own_other_permissions self target) ->
       Map_code self target proc address perms other = Some ERR_WRONG_PERMISSION)
      /\ (base_address self = 0 \/
          ~ perm_subset perms (own_other_permissions self target) ->
          Map_code self target proc address perms other = Some ERR_INVALID_COMBINATION)).
Proof.
  intros Hperms Hown.
  assert (Hexceed : ~ perm_subset perms (own_other_permissions self target) ->
            Map_code self target proc address perms other = Some ERR_INVALID_COMBINATION).
  { intros Hnot. apply perm_exceeds_true in Hnot; [| assumption].
    unfold Map_code.
    rewrite (Map_permission_error _ _ _ _ _ _ ERR_INVALID_COMBINATION); [reflexivity |].
    unfold check_permissions. rewrite Hnot.
    destruct (_ && _); reflexivity. }
  split; [| split; [exact Hexceed |]].
  - intros Hok. apply Map_success_checks in Hok as (Hp & _ & _).
    apply check_permissions_None in Hp as (_ & Hreq & Hoth). split.
    + apply perm_exceeds_false; assumption.
    + intros Hne. apply perm_exceeds_false; auto.
  - intros Hne Hnot. apply perm_exceeds_true in Hnot; [| assumption]. split.
    + intros Hbase Hreq. apply perm_exceeds_false in Hreq; [| assumption].
      unfold Map_code.
      rewrite (Map_permission_error _ _ _ _ _ _ ERR_WRONG_PERMISSION); [reflexivity |].
      unfold check_permissions. rewrite Hreq, Hnot.
      destruct (Z.eqb_spec (base_address self) 0); [contradiction |].
      destruct (Z.eqb_spec other MemoryPermission_DontCare); [contradiction |].
      reflexivity.
    + intros [Hbase | Hreq]; [| exact (Hexceed Hreq)].
      unfold Map_code.
      rewrite (Map_permission_error _ _ _ _ _ _ ERR_INVALID_COMBINATION); [reflexivity |].
      unfold check_permissions. rewrite Hbase.
      destruct (Z.eqb_spec other MemoryPermission_DontCare); [contradiction |].
      reflexivity.
Qed.

(** C2: a freshly allocated object ([base_address == 0]) is never mapped
    with [other_permissions != DontCare], a borrowed one
    ([base_address != 0]) never with [other_permissions == DontCare]; both
    calls return [ERR_INVALID_COMBINATION] and change nothing. *)
Theorem Map_DontCare_exclusivity self target proc address perms other :
  (base_address self = 0 -> other <> MemoryPermission_DontCare ->
   Map self target proc address perms other
   = Return (ERR_INVALID_COMBINATION, (self, proc)))
  /\ (base_address self <> 0 -> other = MemoryPermission_DontCare ->
      Map self target proc address perms other
      = Return (ERR_INVALID_COMBINATION, (self, proc))).
Proof.
  split; intros Hbase Hother; apply Map_permission_error; unfold check_permissions.
  - rewrite Hbase.
    destruct (Z.eqb_spec other MemoryPermission_DontCare); [contradiction | reflexivity].
  - subst other. rewrite Z.eqb_refl.
    destruct (Z.eqb_spec (base_address self) 0); [contradiction |]. simpl.
    destruct (perm_exceeds perms _); reflexivity.
Qed.

(** ** Addresses *)

Lemma check_address_zero self : check_address self 0 = None.
Proof. reflexivity. Qed.

(** What the band check compares, when the end of the block fits in 32
    bits. *)
Lemma check_address_nonzero self address :
  address <> 0 -> is_u32 (address + size self) ->
  check_address self address =
    if (address <? HEAP_VADDR) || (SHARED_MEMORY_VADDR_END <=? address + size self)
    then Some ERR_INVALID_ADDRESS else None.
Proof.
  intros Hnz Hend. unfold check_address. rewrite (u32_small _ Hend).
  destruct (Z.eqb_spec address 0); [contradiction | reflexivity].
Qed.

(** What the area check compares, when both ends fit in 32 bits. *)
Lemma check_vma_None self vma t :
  is_u32 (t + size self) -> is_u32 (vma_base vma + vma_size vma) ->
  check_vma self vma t = None <->
  vma_type vma = VMAType_Free /\ t + size self <= vma_base vma + vma_size vma.
Proof.
  intros Ht Hv. unfold check_vma. rewrite (u32_small _ Ht), (u32_small _ Hv).
  destruct (decide (vma_type vma = VMAType_Free)) as [Hf|Hf].
  - rewrite (bool_decide_eq_true_2 _ Hf). simpl.
    destruct (Z.ltb_spec (vma_base vma + vma_size vma) (t + size self));
      split; try discriminate; intuition lia.
  - rewrite (bool_decide_eq_false_2 _ Hf). simpl.
    split; [discriminate | intuition].
Qed.

(** C3, as the code has it: for a [Map] call that passes the permission
    checks and the band check, when the area [FindVMA] returns starts at or
    below the target and the ends of the block and of the area fit in 32
    bits, [Map] succeeds only if the area is free and contains
    [target_address, target_address + size); otherwise it returns
    [ERR_INVALID_ADDRESS_STATE] and changes nothing. *)
Theorem Map_address_containment self target proc address perms other :
  let target_address := target_address self address in
  let vma := FindVMA (vm_manager proc) target_address in
  check_permissions self target perms other = None ->
  check_address self address = None ->
  vma_base vma <= target_address ->
  is_u32 (target_address + size self) ->
  is_u32 (vma_base vma + vma_size vma) ->
  (Map_code self target proc address perms other = Some RESULT_SUCCESS ->
     free_and_contains vma target_address (size self))
  /\ (~ free_and_contains vma target_address (size self) ->
      Map self target proc address perms other
      = Return (ERR_INVALID_ADDRESS_STATE, (self, proc))).
Proof.
  intros t vma Hp Ha Hlow Ht Hv. split.
  - intros Hok. apply Map_success_checks in Hok as (_ & _ & Hc).
    apply check_vma_None in Hc as [Hfree Hend]; [| assumption ..].
    repeat split; assumption.
  - intros Hnot. apply Map_vma_error; [assumption .. |].
    fold t. fold vma.
    destruct (check_vma self vma t) as [e|] eqn:Hc.
    + apply check_vma_error in Hc. congruence.
    + apply check_vma_None in Hc as [Hfree Hend]; [| assumption ..].
      exfalso. apply Hnot. repeat split; assumption.
Qed.

(** C4: when [base_address] and the requested address are both 0, the
    block goes to [linear_heap_phys_offset + LINEAR_HEAP_VADDR] (a [u32]
    sum): that is the address [Map] looks up and binds at; [Map] hands the
    object back unchanged, so every further call computes the same
    address. *)
Theorem Map_zero_address_placement self target proc perms other :
  base_address self = 0 ->
  let placement := u32 (linear_heap_phys_offset self + LINEAR_HEAP_VADDR) in
  target_address self 0 = placement
  /\ (is_u32 (linear_heap_phys_offset self + LINEAR_HEAP_VADDR) ->
      placement = linear_heap_phys_offset self + LINEAR_HEAP_VADDR)
  /\ (check_permissions self target perms other = None ->
      Map self target proc 0 perms other =
        match check_vma self (FindVMA (vm_manager proc) placement) placement with
        | Some err => Return (err, (self, proc))
        | None =>
            vm ← map_blocks (vm_manager proc) placement perms (backing_blocks self);
            Return (RESULT_SUCCESS, (self, set_vm_manager proc vm))
        end)
  /\ (forall code self' proc',
        Map self target proc 0 perms other = Return (code, (self', proc')) ->
        self' = self /\ target_address self' 0 = placement).
Proof.
  intros Hbase placement.
  assert (Ht : target_address self 0 = placement).
  { unfold target_address. rewrite Hbase. reflexivity. }
  split; [exact Ht |]. split; [apply u32_small |]. split.
  - intros Hp. unfold Map. rewrite Hp, check_address_zero, Ht. reflexivity.
  - intros code self' proc' Hm.
    assert (Hself : self' = self).
    { unfold Map in Hm.
      destruct (check_permissions self target perms other); [inversion Hm; reflexivity |].
      rewrite check_address_zero in Hm.
      destruct (check_vma _ _ _); [inversion Hm; reflexivity |].
      destruct (map_blocks _ _ _ _); simpl in Hm; inversion Hm; reflexivity. }
    subst self'. auto.
Qed.

(** C5: whenever [Map] returns one of its four error codes, the object and
    the target process (its address space with it) are as they were. *)
Theorem Map_error_leaves_state self target proc address perms other code self' proc' :
  Map self target proc address perms other = Return (code, (self', proc')) ->
  code = ERR_INVALID_COMBINATION \/ code = ERR_WRONG_PERMISSION \/
  code = ERR_INVALID_ADDRESS \/ code = ERR_INVALID_ADDRESS_STATE ->
  self' = self /\ proc' = proc.
Proof.
  unfold Map. intros Hm Herr.
  destruct (check_permissions self target perms other); [inversion Hm; auto |].
  destruct (check_address self address); [inversion Hm; auto |].
  destruct (check_vma _ _ _); [inversion Hm; auto |].
  destruct (map_blocks _ _ _ _); simpl in Hm; inversion Hm; subst code.
  destruct Herr as [? | [? | [? | ?]]]; discriminate.
Qed.

(** C9, as the code has it: for a [Map] call with a nonzero address that
    passes the permission checks and whose block ends within 32 bits,
    [ERR_INVALID_ADDRESS] is returned when the block starts below
    [HEAP_VADDR] or ends above [SHARED_MEMORY_VADDR_END], and is not
    returned when the block starts at or above [HEAP_VADDR] and ends below
    [SHARED_MEMORY_VADDR_END]. *)
Theorem Map_band_check self target proc address perms other :
  address <> 0 ->
  check_permissions self target perms other = None ->
  is_u32 (address + size self) ->
  (~ in_shared_memory_band address (size self) ->
     Map self target proc address perms other
     = Return (ERR_INVALID_ADDRESS, (self, proc)))
  /\ (HEAP_VADDR <= address -> address + size self < SHARED_MEMORY_VADDR_END ->
      Map_code self target proc address perms other <> Some ERR_INVALID_ADDRESS).
Proof.
  intros Hnz Hp Hend.
  pose proof (check_address_nonzero self address Hnz Hend) as Hc. split.
  - intros Hout. apply Map_address_error; [assumption |]. rewrite Hc.
    unfold in_shared_memory_band in Hout.
    destruct (Z.ltb_spec address HEAP_VADDR); [reflexivity |].
    destruct (Z.leb_spec SHARED_MEMORY_VADDR_END (address + size self));
      [reflexivity | lia].
  - intros Hlow Hhigh.
    destruct (Z.ltb_spec address HEAP_VADDR); [lia |].
    destruct (Z.leb_spec SHARED_MEMORY_VADDR_END (address + size self)); [lia |].
    simpl in Hc. unfold Map_code, Map. rewrite Hp, Hc.
    destruct (check_vma _ _ _) as [e|] eqn:Hv.
    + apply check_vma_error in Hv. subst e. discriminate.
    + destruct (map_blocks _ _ _ _); discriminate.
Qed.

(** At the very end of the band the comparison of line 141 is [>=]: a
    block that ends exactly at [SHARED_MEMORY_VADDR_END] is turned away. *)
Lemma Map_band_end self target proc address perms other :
  address <> 0 ->
  check_permissions self target perms other = None ->
  is_u32 (address + size self) ->
  address + size self = SHARED_MEMORY_VADDR_END ->
  Map self target proc address perms other
  = Return (ERR_INVALID_ADDRESS, (self, proc)).
Proof.
  intros Hnz Hp Hend Heq. apply Map_address_error; [assumption |].
  rewrite (check_address_nonzero self address Hnz Hend), Heq, Z.leb_refl.
  rewrite orb_true_r. reflexivity.
Qed.

(** ** Creation *)

Lemma CreateSharedMemory_fresh k owner size' perms other region nm :
  CreateSharedMemory k owner size' perms other 0 region nm =
    match fst (LinearAllocate (memory_regions k region) size') with
    | None => AssertFailed
    | Some offset =>
        k' ← charge_owner
               (set_fcram
                  (set_memory_region k region
                     (snd (LinearAllocate (memory_regions k region) size')))
                  (fill_zero (fcram k) offset (offset + size')))
               owner size';
        Return (MakeResult
                  (with_base_address
                     (with_fresh_storage
                        (new_SharedMemory owner nm size' perms other) offset) 0), k')
    end.
Proof.
  unfold CreateSharedMemory. simpl.
  destruct (LinearAllocate (memory_regions k region) size') as [[offset|] info];
    reflexivity.
Qed.

Lemma CreateSharedMemory_borrowed k owner size' perms other address region nm sm k' :
  address <> 0 ->
  CreateSharedMemory k owner size' perms other address region nm
  = Return (MakeResult sm, k') ->
  exists p proc blocks,
    owner = Some p /\ processes k !! p = Some proc /\
    fst (lock_owner_range address size' perms (vm_manager proc)) = RESULT_SUCCESS /\
    k' = set_process k p
           (set_vm_manager proc
              (snd (lock_owner_range address size' perms (vm_manager proc)))) /\
    sm = with_base_address
           (with_backing_blocks (new_SharedMemory owner nm size' perms other) blocks)
           address.
Proof.
  intros Hnz. unfold CreateSharedMemory.
  destruct (Z.eqb_spec address 0); [contradiction |]. simpl.
  destruct owner as [p|]; [| discriminate].
  destruct (processes k !! p) as [proc|] eqn:Hproc; [| discriminate].
  destruct (lock_owner_range address size' perms (vm_manager proc))
    as [code vm] eqn:Hlock.
  destruct code; simpl; intros Hc; try discriminate.
  destruct (GetBackingBlocksForRange vm address size') as [blocks|]; [| discriminate].
  inversion Hc. subst. exists p, proc, blocks. rewrite Hlock. auto.
Qed.

(** The interval a fresh allocation records is the block itself, unless it
    is empty. *)
Lemma interval_set_add_fresh offset size' :
  0 < size' -> 0 <= offset -> is_u32 (offset + size') ->
  interval_set_add [] (offset, u32 (offset + size')) = [(offset, offset + size')].
Proof.
  intros Hs Ho Hend. rewrite (u32_small _ Hend).
  unfold interval_set_add, lower, upper. simpl.
  destruct (Z.ltb_spec offset (offset + size')); [reflexivity | lia].
Qed.

(** C8, as the code has it: an object made by [CreateSharedMemory] has
    [base_address] 0 exactly when its storage was freshly allocated (address
    0 was passed) and, for an allocation of at least one byte that does not
    wrap around the 32-bit physical range, an empty [holding_memory] exactly
    when its storage was borrowed. An object made by
    [CreateSharedMemoryForApplet] has no owner, freshly allocated storage
    and a non-empty [holding_memory], yet its [base_address] is
    [HEAP_VADDR + offset], not 0. *)
Theorem creation_storage_invariant :
  (forall k owner size' perms other address region nm sm k',
      CreateSharedMemory k owner size' perms other address region nm
      = Return (MakeResult sm, k') ->
      (base_address sm = 0 <-> address = 0) /\
      (0 < size' -> 0 <= linear_heap_phys_offset sm ->
       is_u32 (linear_heap_phys_offset sm + size') ->
       (holding_memory sm = [] <-> address <> 0)))
  /\ (forall k offset size' perms other nm sm k',
        CreateSharedMemoryForApplet k offset size' perms other nm = Return (sm, k') ->
        owner_process sm = None /\
        base_address sm = u32 (HEAP_VADDR + offset) /\
        holding_memory sm = fst (HeapAllocate (memory_regions k MemoryRegion_SYSTEM) size') /\
        holding_memory sm <> []).
Proof.
  split.
  - intros k owner size' perms other address region nm sm k' Hc.
    destruct (Z.eq_dec address 0) as [Hz|Hnz].
    + subst address. rewrite CreateSharedMemory_fresh in Hc.
      destruct (fst (LinearAllocate _ _)) as [offset|]; [| discriminate].
      destruct (charge_owner _ _ _); simpl in Hc; try discriminate.
      inversion Hc. subst. simpl. split; [tauto |].
      intros Hs Ho Hend. rewrite interval_set_add_fresh by assumption.
      split; [discriminate | contradiction].
    + destruct (CreateSharedMemory_borrowed _ _ _ _ _ _ _ _ _ _ Hnz Hc)
        as (p & proc & blocks & _ & _ & _ & _ & ->).
      simpl. tauto.
  - intros k offset size' perms other nm sm k'. unfold CreateSharedMemoryForApplet.
    destruct (HeapAllocate _ _) as [blocks info]. simpl.
    destruct (decide (blocks = [])) as [He|Hne].
    + rewrite (bool_decide_eq_true_2 _ He). discriminate.
    + rewrite (bool_decide_eq_false_2 _ Hne). simpl.
      destruct (foldl applet_block _ blocks) as [backing mem].
      intros Hc. inversion Hc. subst. simpl. auto.
Qed.

(** C10: with a nonzero address and a null owner [CreateSharedMemory]
    dereferences the null pointer, whatever the other arguments. With
    address 0 a null owner is accepted: whenever [LinearAllocate] gives an
    offset the call returns the object at that offset and touches no
    process; the call made for a live owner [p] returns the same object but
    for the owner it records, and the same kernel but for [p]'s
    [memory_used], increased by [size] (modulo 2^32). When [LinearAllocate]
    gives no offset the [ASSERT] fails, whoever the owner is. *)
Theorem CreateSharedMemory_owner_precondition k size' perms other region nm :
  (forall address, address <> 0 ->
     CreateSharedMemory k None size' perms other address region nm = InvalidDeref)
  /\ (forall offset,
        fst (LinearAllocate (memory_regions k region) size') = Some offset ->
        exists sm0 k0,
          CreateSharedMemory k None size' perms other 0 region nm
          = Return (MakeResult sm0, k0) /\
          sm0 = {| owner_process := None; name := nm; size := size';
                   permissions := perms; other_permissions := other;
                   base_address := 0;
                   backing_blocks := [(offset, size')];
                   holding_memory :=
                     interval_set_add [] (offset, u32 (offset + size'));
                   linear_heap_phys_offset := offset |} /\
          processes k0 = processes k /\
          forall p proc,
            processes k !! p = Some proc ->
            exists sm1 k1,
              CreateSharedMemory k (Some p) size' perms other 0 region nm
              = Return (MakeResult sm1, k1) /\
              sm1 = {| owner_process := Some p; name := nm; size := size';
                       permissions := perms; other_permissions := other;
                       base_address := 0;
                       backing_blocks := [(offset, size')];
                       holding_memory :=
                         interval_set_add [] (offset, u32 (offset + size'));
                       linear_heap_phys_offset := offset |} /\
              memory_regions k1 = memory_regions k0 /\
              fcram k1 = fcram k0 /\
              processes k1 =
                <[p := {| vm_manager := vm_manager proc;
                          memory_used := u32 (memory_used proc + size') |}]>
                  (processes k0))
  /\ (fst (LinearAllocate (memory_regions k region) size') = None ->
      forall owner,
        CreateSharedMemory k owner size' perms other 0 region nm = AssertFailed).
Proof.
  split; [| split].
  - intros address Hnz. unfold CreateSharedMemory.
    destruct (Z.eqb_spec address 0); [contradiction | reflexivity].
  - intros offset Halloc. rewrite CreateSharedMemory_fresh, Halloc. simpl.
    eexists _, _. split; [reflexivity |]. split; [reflexivity |].
    split; [reflexivity |].
    intros p proc Hproc. rewrite CreateSharedMemory_fresh, Halloc. simpl.
    rewrite Hproc. simpl.
    eexists _, _. split; [reflexivity |]. split; [reflexivity |].
    split; [reflexivity |]. split; reflexivity.
  - intros Halloc owner. rewrite CreateSharedMemory_fresh, Halloc. reflexivity.
Qed.

(** ** Destruction *)

Lemma free_intervals_processes k intervals :
  processes (foldl free_interval k intervals) = processes k.
Proof.
  revert k. induction intervals as [|i intervals IH]; intros k; simpl;
    [reflexivity | rewrite IH; reflexivity].
Qed.

(** The loop of lines 16-19 only ever talks to the SYSTEM region. *)
Lemma free_intervals_other_regions k intervals r :
  r <> MemoryRegion_SYSTEM ->
  memory_regions (foldl free_interval k intervals) r = memory_regions k r.
Proof.
  intros Hr. revert k. induction intervals as [|i intervals IH]; intros k; simpl.
  - reflexivity.
  - rewrite IH. simpl. destruct (decide (r = MemoryRegion_SYSTEM)); [contradiction | reflexivity].
Qed.

(** Every interval of [holding_memory] is freed into SYSTEM once, in
    order. *)
Lemma free_intervals_SYSTEM k intervals :
  memory_regions (foldl free_interval k intervals) MemoryRegion_SYSTEM =
  foldl (fun info interval =>
           Free info (lower interval) (u32 (upper interval - lower interval)))
        (memory_regions k MemoryRegion_SYSTEM) intervals.
Proof.
  revert k. induction intervals as [|i intervals IH]; intros k; simpl.
  - reflexivity.
  - rewrite IH. simpl.
    destruct (decide (MemoryRegion_SYSTEM = MemoryRegion_SYSTEM)); [reflexivity | contradiction].
Qed.

Lemma free_intervals_fcram k intervals :
  fcram (foldl free_interval k intervals) = fcram k.
Proof.
  revert k. induction intervals as [|i intervals IH]; intros k; simpl;
    [reflexivity | rewrite IH; reflexivity].
Qed.

(** What the destructor does to the region allocators, for any object. *)
Lemma SharedMemory_dtor_regions self k k' :
  SharedMemory_dtor self k = Return k' ->
  memory_regions k' MemoryRegion_SYSTEM =
    foldl (fun info interval =>
             Free info (lower interval) (u32 (upper interval - lower interval)))
          (memory_regions k MemoryRegion_SYSTEM) (holding_memory self)
  /\ (forall r, r <> MemoryRegion_SYSTEM -> memory_regions k' r = memory_regions k r)
  /\ fcram k' = fcram k.
Proof.
  unfold SharedMemory_dtor. intros Hd.
  assert (Hk : memory_regions k' = memory_regions (foldl free_interval k (holding_memory self))
               /\ fcram k' = fcram (foldl free_interval k (holding_memory self))).
  { destruct (negb _); [| inversion Hd; auto].
    destruct (owner_process self) as [p|]; [| inversion Hd; auto].
    destruct (processes _ !! p); inversion Hd; auto. }
  destruct Hk as [Hregions Hfcram]. rewrite Hregions, Hfcram.
  split; [apply free_intervals_SYSTEM |].
  split; [intros r Hr; apply free_intervals_other_regions; assumption |].
  apply free_intervals_fcram.
Qed.

(** C7, the destructor case by case. With a nonzero [base_address] and a
    live owner, the owner's address space becomes the one
    [ChangeMemoryState] leaves when asked to take
    [base_address, base_address + size) from Locked / no access to
    Private / ReadWrite, its [memory_used] and every other process being
    left alone; that is the range, and the state, of the request
    borrow-existing-mapping creation made (Private / ReadWrite to Locked).
    With a null owner the restoration is skipped and no process is read or
    written. With an owner that has been destroyed the pointer is still not
    null: line 20 lets it through and line 21 dereferences it. *)
Theorem SharedMemory_dtor_owner_cases self k :
  (forall p proc,
      base_address self <> 0 -> owner_process self = Some p ->
      processes k !! p = Some proc ->
      exists k',
        SharedMemory_dtor self k = Return k' /\
        processes k' =
          <[p := {| vm_manager :=
                      snd (ChangeMemoryState (vm_manager proc)
                             (base_address self) (size self)
                             MemoryState_Locked VMAPermission_None
                             MemoryState_Private VMAPermission_ReadWrite);
                    memory_used := memory_used proc |}]>
            (processes k))
  /\ (owner_process self = None ->
      exists k', SharedMemory_dtor self k = Return k' /\ processes k' = processes k)
  /\ (forall p,
        base_address self <> 0 -> owner_process self = Some p ->
        processes k !! p = None ->
        SharedMemory_dtor self k = InvalidDeref)
  /\ (forall k0 owner size' perms other address region nm k1,
        address <> 0 ->
        CreateSharedMemory k0 owner size' perms other address region nm
        = Return (MakeResult self, k1) ->
        base_address self = address /\ size self = size' /\
        exists p proc0,
          owner_process self = Some p /\ processes k0 !! p = Some proc0 /\
          processes k1 =
            <[p := {| vm_manager :=
                        snd (ChangeMemoryState (vm_manager proc0) address size'
                               MemoryState_Private VMAPermission_ReadWrite
                               MemoryState_Locked (ConvertPermissions perms));
                      memory_used := memory_used proc0 |}]>
              (processes k0)).
Proof.
  split; [| split; [| split]].
  - intros p proc Hbase Howner Hproc. unfold SharedMemory_dtor.
    destruct (Z.eqb_spec (base_address self) 0); [contradiction |]. simpl.
    rewrite Howner, free_intervals_processes, Hproc.
    eexists. split; [reflexivity |]. simpl.
    rewrite free_intervals_processes. reflexivity.
  - intros Howner. unfold SharedMemory_dtor. rewrite Howner.
    destruct (negb _); eexists; (split; [reflexivity | apply free_intervals_processes]).
  - intros p Hbase Howner Hgone. unfold SharedMemory_dtor.
    destruct (Z.eqb_spec (base_address self) 0); [contradiction |]. simpl.
    rewrite Howner, free_intervals_processes, Hgone. reflexivity.
  - intros k0 owner size' perms other address region nm k1 Hnz Hc.
    destruct (CreateSharedMemory_borrowed _ _ _ _ _ _ _ _ _ _ Hnz Hc)
      as (p & proc & blocks & -> & Hproc & _ & -> & ->).
    simpl. split; [reflexivity |]. split; [reflexivity |].
    exists p, proc. auto.
Qed.

(** The storage of a fresh object goes back to the SYSTEM region, whichever
    region it came from; no other region hears of it. *)
Lemma SharedMemory_dtor_fresh k owner size' perms other region nm sm k1 :
  CreateSharedMemory k owner size' perms other 0 region nm = Return (MakeResult sm, k1) ->
  0 < size' -> 0 <= linear_heap_phys_offset sm ->
  is_u32 (linear_heap_phys_offset sm + size') ->
  fst (LinearAllocate (memory_regions k region) size') = Some (linear_heap_phys_offset sm)
  /\ memory_regions k1 region = snd (LinearAllocate (memory_regions k region) size')
  /\ exists k2,
       SharedMemory_dtor sm k1 = Return k2 /\
       memory_regions k2 MemoryRegion_SYSTEM
       = Free (memory_regions k1 MemoryRegion_SYSTEM) (linear_heap_phys_offset sm) size' /\
       forall r, r <> MemoryRegion_SYSTEM -> memory_regions k2 r = memory_regions k1 r.
Proof.
  intros Hc Hs Ho Hend. rewrite CreateSharedMemory_fresh in Hc.
  destruct (fst (LinearAllocate _ _)) as [offset|] eqn:Halloc; [| discriminate].
  assert (Hregion : forall ka, charge_owner
             (set_fcram
                (set_memory_region k region
                   (snd (LinearAllocate (memory_regions k region) size')))
                (fill_zero (fcram k) offset (offset + size'))) owner size' = Return ka ->
            memory_regions ka region = snd (LinearAllocate (memory_regions k region) size')).
  { intros ka. unfold charge_owner. destruct owner as [p|].
    - simpl. destruct (processes k !! p); [| discriminate].
      intros Hk. inversion Hk. simpl.
      destruct (decide (region = region)); [reflexivity | contradiction].
    - intros Hk. inversion Hk. simpl.
      destruct (decide (region = region)); [reflexivity | contradiction]. }
  destruct (charge_owner _ _ _) as [ka| |] eqn:Hcharge; simpl in Hc; try discriminate.
  inversion Hc. subst sm k1. simpl in *.
  split; [reflexivity |]. split; [apply Hregion; reflexivity |].
  unfold SharedMemory_dtor. simpl.
  rewrite interval_set_add_fresh by assumption. simpl.
  eexists. split; [reflexivity |]. split.
  - unfold free_interval, lower, upper. simpl.
    destruct (decide (MemoryRegion_SYSTEM = MemoryRegion_SYSTEM)); [| contradiction].
    replace (offset + size' - offset) with size' by lia.
    rewrite u32_small; [reflexivity |]. unfold is_u32 in *. lia.
  - intros r Hr. unfold free_interval. simpl.
    destruct (decide (r = MemoryRegion_SYSTEM)); [contradiction | reflexivity].
Qed.

(** ** More on [ConvertPermissions] and on the verdicts of [Map] *)

Lemma testbit_7 i : 0 <= i -> Z.testbit 7 i = (i <? 3).
Proof.
  intros Hi. change 7 with (Z.ones 3). destruct (Z.ltb_spec i 3).
  - apply Z.ones_spec_low. lia.
  - apply Z.ones_spec_high. lia.
Qed.

(** X1: [ConvertPermissions] keeps the read, write and execute bits and
    drops every other bit: its value lies between 0 and 7, grants nothing
    the argument did not, is unchanged by a second conversion, and is
    [VMAPermission::None] for an argument without any of the three bits
    (a sentinel such as bit 28). *)
Theorem ConvertPermissions_low_bits permission :
  (forall i, 0 <= i ->
     Z.testbit (ConvertPermissions permission) i = (i <? 3) && Z.testbit permission i)
  /\ 0 <= ConvertPermissions permission <= 7
  /\ perm_subset (ConvertPermissions permission) permission
  /\ ConvertPermissions (ConvertPermissions permission) = ConvertPermissions permission
  /\ ((forall i, 0 <= i < 3 -> Z.testbit permission i = false) ->
      ConvertPermissions permission = VMAPermission_None).
Proof.
  assert (Hbits : forall p i, 0 <= i ->
            Z.testbit (ConvertPermissions p) i = (i <? 3) && Z.testbit p i).
  { intros p i Hi. unfold ConvertPermissions, MemoryPermission_ReadWriteExecute.
    rewrite Z.land_spec, testbit_7 by assumption. apply andb_comm. }
  split; [apply Hbits |]. split; [| split; [| split]].
  - unfold ConvertPermissions, MemoryPermission_ReadWriteExecute.
    assert (Hmod : Z.land permission 7 = permission mod 8)
      by (change 7 with (Z.ones 3); apply Z.land_ones; lia).
    rewrite Hmod.
    pose proof (Z.mod_pos_bound permission 8 ltac:(lia)). lia.
  - intros i Hi. rewrite Hbits by assumption.
    intros Hb. apply andb_true_iff in Hb. tauto.
  - apply Z.bits_inj'. intros i Hi. rewrite !Hbits by assumption.
    destruct (i <? 3); reflexivity.
  - intros Hnone. unfold VMAPermission_None. apply Z.bits_inj'. intros i Hi.
    rewrite Hbits, Z.bits_0 by assumption.
    destruct (Z.ltb_spec i 3); [| reflexivity]. rewrite Hnone by lia. reflexivity.
Qed.

(** A permission error is the verdict of [check_permissions], and of
    nothing after it. *)
Lemma Map_code_permission_error self target proc address perms other err :
  err = ERR_INVALID_COMBINATION \/ err = ERR_WRONG_PERMISSION ->
  Map_code self target proc address perms other = Some err <->
  check_permissions self target perms other = Some err.
Proof.
  intros Herr. unfold Map_code, Map.
  destruct (check_permissions self target perms other) as [e|] eqn:Hp; simpl.
  { split; intros He; inversion He; reflexivity. }
  split; [| discriminate]. intros Hm. exfalso.
  destruct (check_address self address) as [e|] eqn:Ha.
  { apply check_address_error in Ha. subst e. simpl in Hm.
    destruct Herr; subst err; discriminate. }
  destruct (check_vma _ _ _) as [e|] eqn:Hv.
  { apply check_vma_error in Hv. subst e. simpl in Hm.
    destruct Herr; subst err; discriminate. }
  destruct (map_blocks _ _ _ _); simpl in Hm; try discriminate.
  destruct Herr; subst err; discriminate.
Qed.

(** X2: [Map] returns [ERR_WRONG_PERMISSION] exactly when the object is
    borrowed ([base_address != 0]), [other_permissions] is not [DontCare],
    the requested permissions are within the applicable default set, and
    the object's own permissions are not within the caller's
    [other_permissions]. A freshly allocated object never gives this
    code. *)
Theorem Map_WrongPermission_iff self target proc address perms other :
  is_u32 perms -> is_u32 (permissions self) ->
  Map_code self target proc address perms other = Some ERR_WRONG_PERMISSION <->
  base_address self <> 0 /\
  other <> MemoryPermission_DontCare /\
  perm_subset perms (own_other_permissions self target) /\
  ~ perm_subset (permissions self) other.
Proof.
  intros Hperms Hown.
  rewrite Map_code_permission_error by auto.
  rewrite <- (perm_exceeds_false perms _ Hperms).
  rewrite <- (perm_exceeds_true (permissions self) other Hown).
  unfold check_permissions.
  destruct (Z.eqb_spec (base_address self) 0);
    destruct (Z.eqb_spec other MemoryPermission_DontCare);
    destruct (perm_exceeds perms _);
    destruct (perm_exceeds (permissions self) other); simpl;
    split; try discriminate; intuition congruence.
Qed.

(** X3: [Map] returns [ERR_INVALID_COMBINATION] exactly when a freshly
    allocated object is mapped with [other_permissions != DontCare], or a
    borrowed one with [other_permissions == DontCare], or the requested
    permissions go beyond the applicable default set; no address and no
    state of the target process plays a part. *)
Theorem Map_InvalidCombination_iff self target proc address perms other :
  is_u32 perms ->
  Map_code self target proc address perms other = Some ERR_INVALID_COMBINATION <->
  (base_address self = 0 /\ other <> MemoryPermission_DontCare) \/
  (base_address self <> 0 /\ other = MemoryPermission_DontCare) \/
  ~ perm_subset perms (own_other_permissions self target).
Proof.
  intros Hperms.
  rewrite Map_code_permission_error by auto.
  rewrite <- (perm_exceeds_true perms _ Hperms).
  unfold check_permissions.
  destruct (Z.eqb_spec (base_address self) 0);
    destruct (Z.eqb_spec other MemoryPermission_DontCare);
    destruct (perm_exceeds perms _);
    destruct (perm_exceeds (permissions self) other); simpl;
    split; try discriminate; intuition congruence.
Qed.

(** X4: [Map] returns [ERR_INVALID_ADDRESS] exactly when the permission
    checks pass, the requested address is not 0, and the address is below
    [HEAP_VADDR] or the 32-bit sum [address + size] is at or above
    [SHARED_MEMORY_VADDR_END]. With address 0 the band is never
    consulted. *)
Theorem Map_InvalidAddress_iff self target proc address perms other :
  Map_code self target proc address perms other = Some ERR_INVALID_ADDRESS <->
  check_permissions self target perms other = None /\
  address <> 0 /\
  (address < HEAP_VADDR \/ SHARED_MEMORY_VADDR_END <= u32 (address + size self)).
Proof.
  unfold Map_code, Map.
  destruct (check_permissions self target perms other) as [e|] eqn:Hp; simpl.
  { apply check_permissions_error in Hp.
    split; [| intros (Hn & _); discriminate].
    intros He. destruct Hp; subst e; discriminate. }
  unfold check_address.
  destruct (Z.eqb_spec address 0) as [Hz|Hnz]; simpl.
  - split; [| tauto]. intros Hm. exfalso.
    destruct (check_vma _ _ _) as [e|] eqn:Hv.
    + apply check_vma_error in Hv. subst e. discriminate.
    + destruct (map_blocks _ _ _ _); discriminate.
  - destruct (Z.ltb_spec address HEAP_VADDR); simpl; [intuition |].
    destruct (Z.leb_spec SHARED_MEMORY_VADDR_END (u32 (address + size self)));
      simpl; [intuition |].
    split; [| lia]. intros Hm. exfalso.
    destruct (check_vma _ _ _) as [e|] eqn:Hv.
    + apply check_vma_error in Hv. subst e. discriminate.
    + destruct (map_blocks _ _ _ _); discriminate.
Qed.

(** ** The binding loop of [Map] *)

Lemma u32_add_l a b : u32 (u32 a + b) = u32 (a + b).
Proof. unfold u32. apply Z.add_mod_idemp_l. lia. Qed.

Lemma map_blocks_no_deref vm t perms blocks :
  map_blocks vm t perms blocks <> InvalidDeref.
Proof.
  revert vm t. induction blocks as [|b blocks IH]; intros vm t; simpl; [discriminate |].
  destruct (MapBackingMemory vm t (fst b) (snd b) MemoryState_Shared) as [[h|c] vm'];
    [apply IH | discriminate].
Qed.

(** X5: once the permission, band and area checks have passed, [Map]
    returns no error code: it returns [RESULT_SUCCESS] or an [ASSERT] on a
    binding fails. Conversely an [ASSERT] fails only after the three checks
    have passed. *)
Theorem Map_after_checks self target proc address perms other :
  (check_permissions self target perms other = None ->
   check_address self address = None ->
   check_vma self (FindVMA (vm_manager proc) (target_address self address))
             (target_address self address) = None ->
   Map_code self target proc address perms other = Some RESULT_SUCCESS \/
   Map self target proc address perms other = AssertFailed)
  /\ (Map self target proc address perms other = AssertFailed ->
      check_permissions self target perms other = None /\
      check_address self address = None /\
      check_vma self (FindVMA (vm_manager proc) (target_address self address))
                (target_address self address) = None /\
      map_blocks (vm_manager proc) (target_address self address) perms
                 (backing_blocks self) = AssertFailed).
Proof.
  split.
  - intros Hp Ha Hv. unfold Map_code. rewrite (Map_checks_passed _ _ _ _ _ _ Hp Ha Hv).
    destruct (map_blocks _ _ _ _) as [vm| |] eqn:Hm; simpl; auto.
    exfalso. exact (map_blocks_no_deref _ _ _ _ Hm).
  - unfold Map. intros Hm.
    destruct (check_permissions self target perms other); [discriminate |].
    destruct (check_address self address); [discriminate |].
    destruct (check_vma _ _ _); [discriminate |].
    destruct (map_blocks _ _ _ _); simpl in Hm; try discriminate. auto.
Qed.

(** X6: the backing blocks are bound back to back: binding a run
    [blocks1 ++ blocks2] from [start] is binding [blocks1] from [start] and
    then [blocks2] from [start] plus the total length of [blocks1] (modulo
    2^32), on the address space the first run left; a failure in the first
    run stops the second. *)
Theorem map_blocks_app vm (start : Z) perms blocks1 blocks2 :
  is_u32 start ->
  map_blocks vm start perms (blocks1 ++ blocks2) =
    vm' ← map_blocks vm start perms blocks1;
    map_blocks vm' (u32 (start + block_lengths blocks1)) perms blocks2.
Proof.
  revert vm start. induction blocks1 as [|b blocks1 IH]; intros vm start Ht; simpl.
  - rewrite Z.add_0_r, (u32_small _ Ht). reflexivity.
  - destruct (MapBackingMemory vm start (fst b) (snd b) MemoryState_Shared)
      as [[h|c] vm']; [| reflexivity].
    rewrite IH by apply u32_range.
    rewrite u32_add_l, Z.add_assoc. reflexivity.
Qed.

(** X7: whatever [Map] returns, success included, the object is handed
    back as it was and the target process keeps its [memory_used]: [Map]
    writes to the target's address space and to nothing else. *)
Theorem Map_writes_address_space_only self target proc address perms other code self' proc' :
  Map self target proc address perms other = Return (code, (self', proc')) ->
  self' = self /\ memory_used proc' = memory_used proc.
Proof.
  unfold Map. intros Hm.
  destruct (check_permissions self target perms other); [inversion Hm; auto |].
  destruct (check_address self address); [inversion Hm; auto |].
  destruct (check_vma _ _ _); [inversion Hm; auto |].
  destruct (map_blocks _ _ _ _); simpl in Hm; inversion Hm; auto.
Qed.

(** ** More on creation *)

Lemma charge_owner_Return k owner size' k' :
  charge_owner k owner size' = Return k' ->
  memory_regions k' = memory_regions k /\
  fcram k' = fcram k /\
  match owner with
  | None => processes k' = processes k
  | Some p =>
      exists proc,
        processes k !! p = Some proc /\
        processes k' =
          <[p := {| vm_manager := vm_manager proc;
                    memory_used := u32 (memory_used proc + size') |}]> (processes k)
  end.
Proof.
  unfold charge_owner. destruct owner as [p|].
  - destruct (processes k !! p) as [proc|] eqn:Hproc; [| discriminate].
    intros Hk. inversion Hk. simpl. eauto.
  - intros Hk. inversion Hk. auto.
Qed.

(** A successful fresh allocation, taken apart. *)
Lemma CreateSharedMemory_fresh_inv k owner size' perms other region nm sm k' :
  CreateSharedMemory k owner size' perms other 0 region nm = Return (MakeResult sm, k') ->
  exists offset,
    fst (LinearAllocate (memory_regions k region) size') = Some offset /\
    sm = with_base_address
           (with_fresh_storage (new_SharedMemory owner nm size' perms other) offset) 0 /\
    charge_owner
      (set_fcram
         (set_memory_region k region
            (snd (LinearAllocate (memory_regions k region) size')))
         (fill_zero (fcram k) offset (offset + size')))
      owner size' = Return k'.
Proof.
  rewrite CreateSharedMemory_fresh.
  destruct (fst (LinearAllocate _ _)) as [offset|]; [| discriminate].
  destruct (charge_owner _ _ _) as [ka| |] eqn:Hcharge; simpl; try discriminate.
  intros Hc. inversion Hc. subst. eauto.
Qed.

(** X8: fresh allocation zero-fills exactly the block it was given: after
    [CreateSharedMemory] with address 0, a byte of FCRAM is 0 if it lies in
    [linear_heap_phys_offset, linear_heap_phys_offset + size) and is what
    it was before otherwise. *)
Theorem CreateSharedMemory_zero_fill k owner size' perms other region nm sm k' :
  CreateSharedMemory k owner size' perms other 0 region nm = Return (MakeResult sm, k') ->
  forall a,
    fcram k' a =
      if (linear_heap_phys_offset sm <=? a) && (a <? linear_heap_phys_offset sm + size')
      then 0 else fcram k a.
Proof.
  intros Hc a.
  destruct (CreateSharedMemory_fresh_inv _ _ _ _ _ _ _ _ _ Hc) as (offset & _ & -> & Hk).
  apply charge_owner_Return in Hk as (_ & Hfcram & _).
  rewrite Hfcram. reflexivity.
Qed.

(** X9: a fresh allocation changes the allocator of the region it was
    asked to use and no other; it leaves every address space alone, and of
    the processes it changes only the owner's [memory_used], which grows by
    [size] (modulo 2^32); with a null owner no process changes. *)
Theorem CreateSharedMemory_fresh_footprint k owner size' perms other region nm sm k' :
  CreateSharedMemory k owner size' perms other 0 region nm = Return (MakeResult sm, k') ->
  LinearAllocate (memory_regions k region) size'
  = (Some (linear_heap_phys_offset sm), memory_regions k' region)
  /\ (forall r, r <> region -> memory_regions k' r = memory_regions k r)
  /\ match owner with
     | None => processes k' = processes k
     | Some p =>
         exists proc,
           processes k !! p = Some proc /\
           processes k' =
             <[p := {| vm_manager := vm_manager proc;
                       memory_used := u32 (memory_used proc + size') |}]> (processes k)
     end.
Proof.
  intros Hc.
  destruct (CreateSharedMemory_fresh_inv _ _ _ _ _ _ _ _ _ Hc) as (offset & Ho & -> & Hk).
  apply charge_owner_Return in Hk as (Hregions & _ & Hprocs).
  rewrite Hregions. simpl. split; [| split; [| exact Hprocs]].
  - destruct (decide (region = region)); [| contradiction].
    destruct (LinearAllocate _ _) as [o info]. simpl in *. subst o. reflexivity.
  - intros r Hr. destruct (decide (r = region)); [contradiction | reflexivity].
Qed.

(** X10: with address 0 [CreateSharedMemory] never returns an error
    result. It ends in a failed [ASSERT] exactly when [LinearAllocate]
    finds no room, and returns an object located at the offset
    [LinearAllocate] gave whenever the owner is null or a live process. *)
Theorem CreateSharedMemory_fresh_outcome k owner size' perms other region nm :
  (forall code k',
     CreateSharedMemory k owner size' perms other 0 region nm
     <> Return (ErrorResult code, k'))
  /\ (CreateSharedMemory k owner size' perms other 0 region nm = AssertFailed <->
      fst (LinearAllocate (memory_regions k region) size') = None)
  /\ (forall offset,
        fst (LinearAllocate (memory_regions k region) size') = Some offset ->
        owner = None \/ (exists p, owner = Some p /\ is_Some (processes k !! p)) ->
        exists sm k',
          CreateSharedMemory k owner size' perms other 0 region nm
          = Return (MakeResult sm, k') /\
          linear_heap_phys_offset sm = offset /\
          backing_blocks sm = [(offset, size')]).
Proof.
  rewrite CreateSharedMemory_fresh. split; [| split].
  - intros code k'. destruct (fst (LinearAllocate _ _)); [| discriminate].
    destruct (charge_owner _ _ _); simpl; discriminate.
  - destruct (fst (LinearAllocate _ _)) as [offset|]; [| tauto].
    split; [| discriminate].
    unfold charge_owner. destruct owner as [p|]; [| discriminate].
    destruct (processes _ !! p); discriminate.
  - intros offset Ho Howner. rewrite Ho.
    destruct Howner as [-> | (p & -> & [proc Hproc])]; simpl.
    + eauto.
    + rewrite Hproc. simpl. eauto.
Qed.

(** X11: when the owner's range cannot be locked, that is when
    [ChangeMemoryState] answers an error code, [CreateSharedMemory] with a
    nonzero address returns that very code and no object; the owner is left
    with the address space [ChangeMemoryState] handed back, and neither a
    region allocator nor FCRAM is touched. *)
Theorem CreateSharedMemory_borrow_error k p proc size' perms other address region nm code vm :
  address <> 0 ->
  processes k !! p = Some proc ->
  ChangeMemoryState (vm_manager proc) address size'
    MemoryState_Private VMAPermission_ReadWrite
    MemoryState_Locked (ConvertPermissions perms) = (code, vm) ->
  code <> RESULT_SUCCESS ->
  CreateSharedMemory k (Some p) size' perms other address region nm
  = Return (ErrorResult code, set_process k p (set_vm_manager proc vm)).
Proof.
  intros Hnz Hproc Hchange Herr. unfold CreateSharedMemory.
  destruct (Z.eqb_spec address 0); [contradiction |]. simpl. rewrite Hproc.
  unfold lock_owner_range, apply_change, lock_change. simpl. rewrite Hchange.
  destruct code; [contradiction | reflexivity ..].
Qed.

(** X12: with a nonzero address [CreateSharedMemory] allocates nothing,
    whether it returns an object or an error: the region allocators and
    FCRAM are as before, every process keeps its [memory_used], and every
    process but the owner is unchanged. A returned object holds no interval
    and its backing blocks are those [GetBackingBlocksForRange] reports for
    the locked range. *)
Theorem CreateSharedMemory_borrow_footprint
    k owner size' perms other address region nm result k' :
  address <> 0 ->
  CreateSharedMemory k owner size' perms other address region nm = Return (result, k') ->
  memory_regions k' = memory_regions k
  /\ fcram k' = fcram k
  /\ (forall q proc,
        processes k !! q = Some proc ->
        exists proc',
          processes k' !! q = Some proc' /\
          memory_used proc' = memory_used proc /\
          (Some q <> owner -> proc' = proc))
  /\ (forall sm, result = MakeResult sm ->
        holding_memory sm = [] /\
        linear_heap_phys_offset sm = 0 /\
        exists p proc,
          owner = Some p /\ processes k !! p = Some proc /\
          GetBackingBlocksForRange
            (snd (ChangeMemoryState (vm_manager proc) address size'
                    MemoryState_Private VMAPermission_ReadWrite
                    MemoryState_Locked (ConvertPermissions perms)))
            address size'
          = MakeResult (backing_blocks sm)).
Proof.
  intros Hnz. unfold CreateSharedMemory.
  destruct (Z.eqb_spec address 0); [contradiction |]. simpl.
  destruct owner as [p|]; [| discriminate].
  destruct (processes k !! p) as [proc|] eqn:Hproc; [| discriminate].
  unfold lock_owner_range, apply_change, lock_change. simpl.
  destruct (ChangeMemoryState _ _ _ _ _ _ _) as [code vm] eqn:Hchange.
  assert (Hk : forall r,
            Return (r, set_process k p (set_vm_manager proc vm)) = Return (result, k') ->
            memory_regions k' = memory_regions k /\ fcram k' = fcram k /\
            (forall q proc0, processes k !! q = Some proc0 ->
               exists proc', processes k' !! q = Some proc' /\
                 memory_used proc' = memory_used proc0 /\
                 (Some q <> Some p -> proc' = proc0))).
  { intros r Hr. inversion Hr. subst. simpl. split; [reflexivity |].
    split; [reflexivity |]. intros q proc0 Hq.
    destruct (decide (p = q)) as [->|Hpq].
    - rewrite lookup_insert_eq. rewrite Hproc in Hq. inversion Hq. subst proc0.
      eexists. split; [reflexivity |]. split; [reflexivity | congruence].
    - rewrite lookup_insert_ne by assumption. eauto. }
  destruct code; simpl.
  - destruct (GetBackingBlocksForRange vm address size') as [blocks|] eqn:Hblocks;
      [| discriminate].
    intros Hc. destruct (Hk _ Hc) as (Hr & Hf & Hp).
    split; [exact Hr |]. split; [exact Hf |]. split; [exact Hp |].
    intros sm Hsm. subst result. inversion Hc. subst sm k'. simpl.
    split; [reflexivity |]. split; [reflexivity |].
    exists p, proc. rewrite Hchange. auto.
  - intros Hc. destruct (Hk _ Hc) as (Hr & Hf & Hp).
    split; [exact Hr |]. split; [exact Hf |]. split; [exact Hp |].
    intros sm Hsm. subst result. discriminate.
  - intros Hc. destruct (Hk _ Hc) as (Hr & Hf & Hp).
    split; [exact Hr |]. split; [exact Hf |]. split; [exact Hp |].
    intros sm Hsm. subst result. discriminate.
  - intros Hc. destruct (Hk _ Hc) as (Hr & Hf & Hp).
    split; [exact Hr |]. split; [exact Hf |]. split; [exact Hp |].
    intros sm Hsm. subst result. discriminate.
  - intros Hc. destruct (Hk _ Hc) as (Hr & Hf & Hp).
    split; [exact Hr |]. split; [exact Hf |]. split; [exact Hp |].
    intros sm Hsm. subst result. discriminate.
Qed.

(** X13: a freshly allocated object has one backing block, so
    [GetPointer] never faults on it and [GetPointer(offset)] is
    [linear_heap_phys_offset + offset]; for an offset inside the block the
    byte it points to is 0 right after creation. *)
Theorem GetPointer_fresh k owner size' perms other region nm sm k' :
  CreateSharedMemory k owner size' perms other 0 region nm = Return (MakeResult sm, k') ->
  forall offset,
    GetPointer sm offset = Return (linear_heap_phys_offset sm + offset) /\
    (0 <= offset < size' ->
     forall pointer, GetPointer sm offset = Return pointer -> fcram k' pointer = 0).
Proof.
  intros Hc offset.
  destruct (CreateSharedMemory_fresh_inv _ _ _ _ _ _ _ _ _ Hc) as (o & _ & Hsm & Hk).
  apply charge_owner_Return in Hk as (_ & Hfcram & _).
  subst sm. simpl. split; [reflexivity |].
  intros Hoff pointer Hp. inversion Hp. subst pointer.
  rewrite Hfcram. simpl. unfold fill_zero.
  destruct (Z.leb_spec o (o + offset)); [| lia].
  destruct (Z.ltb_spec (o + offset) (o + size')); [reflexivity | lia].
Qed.

(** ** More on the applet entry point *)

Lemma applet_blocks_backing acc mem blocks :
  fst (foldl applet_block (acc, mem) blocks)
  = acc ++ List.map (fun interval =>
                       (lower interval, u32 (upper interval - lower interval))) blocks.
Proof.
  revert acc mem. induction blocks as [|i blocks IH]; intros acc mem; simpl.
  - rewrite app_nil_r. reflexivity.
  - unfold applet_block at 2. simpl. rewrite IH, <- app_assoc. reflexivity.
Qed.

Lemma applet_blocks_fill acc mem blocks a :
  snd (foldl applet_block (acc, mem) blocks) a
  = if existsb (fun interval => (lower interval <=? a) && (a <? upper interval)) blocks
    then 0 else mem a.
Proof.
  revert acc mem. induction blocks as [|i blocks IH]; intros acc mem; simpl.
  - reflexivity.
  - unfold applet_block at 2. simpl. rewrite IH. unfold fill_zero.
    destruct ((lower i <=? a) && (a <? upper i)); simpl;
      destruct (existsb _ blocks); reflexivity.
Qed.

(** A successful applet allocation, taken apart. *)
Lemma CreateSharedMemoryForApplet_inv k offset size' perms other nm sm k' :
  CreateSharedMemoryForApplet k offset size' perms other nm = Return (sm, k') ->
  let blocks := fst (HeapAllocate (memory_regions k MemoryRegion_SYSTEM) size') in
  blocks <> [] /\
  sm = {| owner_process := None; name := nm; size := size';
          permissions := perms; other_permissions := other;
          base_address := u32 (HEAP_VADDR + offset);
          backing_blocks :=
            List.map (fun interval =>
                        (lower interval, u32 (upper interval - lower interval))) blocks;
          holding_memory := blocks;
          linear_heap_phys_offset := 0 |} /\
  memory_regions k' =
    memory_regions
      (set_memory_region k MemoryRegion_SYSTEM
         (snd (HeapAllocate (memory_regions k MemoryRegion_SYSTEM) size'))) /\
  processes k' = processes k /\
  forall a,
    fcram k' a =
      if existsb (fun interval => (lower interval <=? a) && (a <? upper interval)) blocks
      then 0 else fcram k a.
Proof.
  unfold CreateSharedMemoryForApplet.
  destruct (HeapAllocate _ _) as [blocks info]. simpl.
  destruct (decide (blocks = [])) as [He|Hne].
  - rewrite (bool_decide_eq_true_2 _ He). discriminate.
  - rewrite (bool_decide_eq_false_2 _ Hne). simpl.
    pose proof (applet_blocks_backing [] (fcram k) blocks) as Hbacking.
    pose proof (applet_blocks_fill [] (fcram k) blocks) as Hfill.
    destruct (foldl applet_block ([], fcram k) blocks) as [backing mem].
    simpl in Hbacking, Hfill. subst backing.
    intros Hc. inversion Hc. simpl. auto.
Qed.

(** X14: an applet object has one backing block per interval of its
    [holding_memory], in the same order, each starting at the interval's
    lower bound and as long as the interval; there is at least one, so
    [GetPointer] never faults on it, and [GetPointer(offset)] is the lower
    bound of the first interval plus [offset], however many intervals
    there are and however large [offset] is. *)
Theorem CreateSharedMemoryForApplet_backing k offset size' perms other nm sm k' :
  CreateSharedMemoryForApplet k offset size' perms other nm = Return (sm, k') ->
  backing_blocks sm
  = List.map (fun interval => (lower interval, u32 (upper interval - lower interval)))
             (holding_memory sm)
  /\ exists first rest,
       holding_memory sm = first :: rest /\
       forall off, GetPointer sm off = Return (lower first + off).
Proof.
  intros Hc.
  destruct (CreateSharedMemoryForApplet_inv _ _ _ _ _ _ _ _ Hc) as (Hne & -> & _).
  simpl. split; [reflexivity |].
  destruct (fst (HeapAllocate _ _)) as [|first rest]; [contradiction |].
  exists first, rest. split; reflexivity.
Qed.

(** X15: the applet entry point zero-fills every interval it was given
    and nothing else: afterwards a byte of FCRAM that lies in an interval
    of [holding_memory] is 0, and a byte that lies in none is what it was
    before. *)
Theorem CreateSharedMemoryForApplet_zero_fill k offset size' perms other nm sm k' :
  CreateSharedMemoryForApplet k offset size' perms other nm = Return (sm, k') ->
  (forall a interval,
     In interval (holding_memory sm) -> lower interval <= a < upper interval ->
     fcram k' a = 0)
  /\ (forall a,
        (forall interval, In interval (holding_memory sm) ->
                          ~ lower interval <= a < upper interval) ->
        fcram k' a = fcram k a).
Proof.
  intros Hc.
  destruct (CreateSharedMemoryForApplet_inv _ _ _ _ _ _ _ _ Hc) as (_ & -> & _ & _ & Hfill).
  simpl. split.
  - intros a interval Hin Ha. rewrite Hfill.
    destruct (existsb _ _) eqn:He; [reflexivity |]. exfalso.
    assert (Hex : existsb (fun i => (lower i <=? a) && (a <? upper i))
                    (fst (HeapAllocate (memory_regions k MemoryRegion_SYSTEM) size'))
                  = true).
    { apply existsb_exists. exists interval. split; [assumption |].
      apply andb_true_iff. split; [apply Z.leb_le | apply Z.ltb_lt]; lia. }
    congruence.
  - intros a Hout. rewrite Hfill.
    destruct (existsb _ _) eqn:He; [| reflexivity]. exfalso.
    apply existsb_exists in He as (interval & Hin & Ha).
    apply andb_true_iff in Ha as [Hlo Hhi].
    apply Z.leb_le in Hlo. apply Z.ltb_lt in Hhi.
    apply (Hout interval Hin). lia.
Qed.

(** X16: the applet entry point ends in a failed [ASSERT] exactly when
    [HeapAllocate] returns no interval. Otherwise it returns an object
    that records size, permissions and name as passed, has no owner and
    [linear_heap_phys_offset] 0; only the SYSTEM allocator has changed, and
    no process has. *)
Theorem CreateSharedMemoryForApplet_outcome k offset size' perms other nm :
  (CreateSharedMemoryForApplet k offset size' perms other nm = AssertFailed <->
   fst (HeapAllocate (memory_regions k MemoryRegion_SYSTEM) size') = [])
  /\ (forall sm k',
        CreateSharedMemoryForApplet k offset size' perms other nm = Return (sm, k') ->
        HeapAllocate (memory_regions k MemoryRegion_SYSTEM) size'
        = (holding_memory sm, memory_regions k' MemoryRegion_SYSTEM) /\
        (forall r, r <> MemoryRegion_SYSTEM -> memory_regions k' r = memory_regions k r) /\
        processes k' = processes k /\
        owner_process sm = None /\ name sm = nm /\ size sm = size' /\
        permissions sm = perms /\ other_permissions sm = other /\
        linear_heap_phys_offset sm = 0).
Proof.
  split.
  - unfold CreateSharedMemoryForApplet.
    destruct (HeapAllocate _ _) as [blocks info]. simpl.
    destruct (decide (blocks = [])) as [He|Hne].
    + rewrite (bool_decide_eq_true_2 _ He). simpl. tauto.
    + rewrite (bool_decide_eq_false_2 _ Hne). simpl.
      destruct (foldl applet_block _ blocks). split; [discriminate | contradiction].
  - intros sm k' Hc.
    destruct (CreateSharedMemoryForApplet_inv _ _ _ _ _ _ _ _ Hc)
      as (_ & -> & Hregions & Hprocs & _).
    rewrite Hregions. simpl. split; [| split].
    + destruct (decide (MemoryRegion_SYSTEM = MemoryRegion_SYSTEM)); [| contradiction].
      destruct (HeapAllocate _ _). reflexivity.
    + intros r Hr. destruct (decide (r = MemoryRegion_SYSTEM)); [contradiction | reflexivity].
    + repeat split; try reflexivity. exact Hprocs.
Qed.

(** X17: an applet object gives its storage back where it came from:
    destroying it frees every interval [HeapAllocate] returned, once each
    and in order, into the SYSTEM allocator that returned them; the other
    regions and all processes are as they were before the object was
    created, whatever its [base_address]. *)
Theorem applet_storage_returns_to_SYSTEM k offset size' perms other nm sm k1 :
  CreateSharedMemoryForApplet k offset size' perms other nm = Return (sm, k1) ->
  exists k2,
    SharedMemory_dtor sm k1 = Return k2 /\
    memory_regions k2 MemoryRegion_SYSTEM
    = foldl (fun info interval =>
               Free info (lower interval) (u32 (upper interval - lower interval)))
            (snd (HeapAllocate (memory_regions k MemoryRegion_SYSTEM) size'))
            (fst (HeapAllocate (memory_regions k MemoryRegion_SYSTEM) size')) /\
    (forall r, r <> MemoryRegion_SYSTEM -> memory_regions k2 r = memory_regions k r) /\
    processes k2 = processes k.
Proof.
  intros Hc.
  destruct (CreateSharedMemoryForApplet_inv _ _ _ _ _ _ _ _ Hc)
    as (_ & -> & Hregions & Hprocs & _).
  unfold SharedMemory_dtor. simpl.
  eexists. split; [destruct (negb _); reflexivity |].
  rewrite free_intervals_SYSTEM, free_intervals_processes, Hregions. simpl.
  destruct (decide (MemoryRegion_SYSTEM = MemoryRegion_SYSTEM)); [| contradiction].
  split; [reflexivity |]. split; [| exact Hprocs].
  intros r Hr. rewrite free_intervals_other_regions, Hregions by assumption. simpl.
  destruct (decide (r = MemoryRegion_SYSTEM)); [contradiction | reflexivity].
Qed.

(** X18: an applet object has no owner, so whoever maps it is judged by
    [other_permissions]: [Map] succeeds only if the requested permissions
    are within the [other_permissions] given at creation and, as long as
    [HEAP_VADDR + offset] is not 0 modulo 2^32, only with an
    [other_permissions] argument that is not [DontCare]. *)
Theorem applet_object_Map k offset size' perms0 other0 nm sm k' :
  CreateSharedMemoryForApplet k offset size' perms0 other0 nm = Return (sm, k') ->
  (forall target, own_other_permissions sm target = other0)
  /\ (forall target proc address perms other,
        is_u32 perms ->
        Map_code sm target proc address perms other = Some RESULT_SUCCESS ->
        perm_subset perms other0 /\
        (u32 (HEAP_VADDR + offset) <> 0 -> other <> MemoryPermission_DontCare)).
Proof.
  intros Hc. destruct (CreateSharedMemoryForApplet_inv _ _ _ _ _ _ _ _ Hc) as (_ & -> & _).
  split; [reflexivity |].
  intros target proc address perms other Hperms Hok.
  apply Map_success_checks in Hok as (Hp & _ & _).
  apply check_permissions_None in Hp as (Hbase & Hreq & _). simpl in *. split.
  - apply perm_exceeds_false; assumption.
  - intros Hnz Hdc. apply Hnz. apply Hbase. exact Hdc.
Qed.

(** ** More on destruction *)

(** X19: what creation adds to the owner's [memory_used] destruction does
    not take back: after a fresh object is created for a live owner and
    destroyed, the owner's [memory_used] is still larger by [size] (modulo
    2^32), its address space is untouched, and no other process has
    changed. *)
Theorem memory_used_not_refunded k p proc size' perms other region nm offset :
  processes k !! p = Some proc ->
  fst (LinearAllocate (memory_regions k region) size') = Some offset ->
  exists k2,
    create_then_destroy k (Some p) size' perms other 0 region nm = Return k2 /\
    processes k2 =
      <[p := {| vm_manager := vm_manager proc;
                memory_used := u32 (memory_used proc + size') |}]> (processes k).
Proof.
  intros Hproc Halloc. unfold create_then_destroy.
  rewrite CreateSharedMemory_fresh, Halloc. simpl. rewrite Hproc. simpl.
  unfold SharedMemory_dtor. simpl.
  eexists. split; [reflexivity |].
  rewrite free_intervals_processes. reflexivity.
Qed.

(** X20: destroying an object whose [base_address] is 0 reads and writes
    no process, even when the owner is alive, and no byte of FCRAM: only
    the SYSTEM allocator can change. *)
Theorem SharedMemory_dtor_base_address_zero self k :
  base_address self = 0 ->
  exists k',
    SharedMemory_dtor self k = Return k' /\
    processes k' = processes k /\
    fcram k' = fcram k /\
    forall r, r <> MemoryRegion_SYSTEM -> memory_regions k' r = memory_regions k r.
Proof.
  intros Hbase. unfold SharedMemory_dtor. rewrite Hbase. simpl.
  eexists. split; [reflexivity |].
  split; [apply free_intervals_processes |].
  split; [apply free_intervals_fcram |].
  intros r Hr. apply free_intervals_other_regions. assumption.
Qed.

(** X21: a fresh object of size 0 holds nothing: the interval
    [offset, offset + 0) is empty and is not recorded, so its destruction
    calls [Free] on no allocator, though [LinearAllocate(0)] was called to
    create it. *)
Theorem CreateSharedMemory_zero_size k owner perms other region nm sm k1 :
  CreateSharedMemory k owner 0 perms other 0 region nm = Return (MakeResult sm, k1) ->
  is_u32 (linear_heap_phys_offset sm) ->
  holding_memory sm = [] /\
  backing_blocks sm = [(linear_heap_phys_offset sm, 0)] /\
  exists k2,
    SharedMemory_dtor sm k1 = Return k2 /\
    memory_regions k2 = memory_regions k1.
Proof.
  intros Hc Ho.
  destruct (CreateSharedMemory_fresh_inv _ _ _ _ _ _ _ _ _ Hc) as (o & _ & -> & _).
  simpl in *.
  assert (Hempty : interval_set_add [] (o, u32 (o + 0)) = []).
  { rewrite Z.add_0_r, (u32_small _ Ho). unfold interval_set_add, lower, upper. simpl.
    rewrite Z.ltb_irrefl. reflexivity. }
  rewrite Hempty. split; [reflexivity |]. split; [reflexivity |].
  unfold SharedMemory_dtor. simpl. rewrite Hempty. simpl. eauto.
Qed.

(** X22: lending a range and dropping the object leaves the allocators,
    FCRAM and every [memory_used] as they were; the owner's address space
    has gone through the two state changes, Private / ReadWrite to Locked
    and Locked back to Private / ReadWrite on the same range, and every
    other process is unchanged. *)
Theorem borrowed_life_cycle k p proc size' perms other address region nm sm k1 :
  address <> 0 ->
  processes k !! p = Some proc ->
  CreateSharedMemory k (Some p) size' perms other address region nm
  = Return (MakeResult sm, k1) ->
  exists k2,
    SharedMemory_dtor sm k1 = Return k2 /\
    memory_regions k2 = memory_regions k /\
    fcram k2 = fcram k /\
    processes k2 =
      <[p := {| vm_manager :=
                  snd (ChangeMemoryState
                         (snd (ChangeMemoryState (vm_manager proc) address size'
                                 MemoryState_Private VMAPermission_ReadWrite
                                 MemoryState_Locked (ConvertPermissions perms)))
                         address size'
                         MemoryState_Locked VMAPermission_None
                         MemoryState_Private VMAPermission_ReadWrite);
                memory_used := memory_used proc |}]> (processes k).
Proof.
  intros Hnz Hproc Hc.
  destruct (CreateSharedMemory_borrowed _ _ _ _ _ _ _ _ _ _ Hnz Hc)
    as (p' & proc' & blocks & Hp' & Hproc' & _ & -> & ->).
  inversion Hp'. subst p'. rewrite Hproc in Hproc'. inversion Hproc'. subst proc'.
  unfold SharedMemory_dtor. simpl.
  destruct (Z.eqb_spec address 0); [contradiction |]. simpl.
  rewrite lookup_insert_eq.
  eexists. split; [reflexivity |]. simpl.
  split; [reflexivity |]. split; [reflexivity |].
  rewrite insert_insert_eq. reflexivity.
Qed.

(** ** [Map] and [Unmap] together *)

(** X23: for a freshly allocated object mapped at a nonzero address,
    [Map] binds one area, the whole block at [address] with length [size],
    and [Unmap] with the same address asks [UnmapRange] for the range of
    that address and that length on the address space [Map] left,
    returning its code unchanged. *)
Theorem Map_then_Unmap_fresh
    k owner size' perms0 other0 region nm sm k' target proc address perms other proc' :
  CreateSharedMemory k owner size' perms0 other0 0 region nm = Return (MakeResult sm, k') ->
  address <> 0 ->
  Map sm target proc address perms other = Return (RESULT_SUCCESS, (sm, proc')) ->
  exists handle vm,
    MapBackingMemory (vm_manager proc) address (linear_heap_phys_offset sm) size'
                     MemoryState_Shared = (MakeResult handle, vm) /\
    vm_manager proc' = Reprotect vm handle (ConvertPermissions perms) /\
    Unmap sm proc' address =
      (fst (UnmapRange (vm_manager proc') address size'),
       set_vm_manager proc' (snd (UnmapRange (vm_manager proc') address size'))).
Proof.
  intros Hc Hnz Hm.
  destruct (CreateSharedMemory_fresh_inv _ _ _ _ _ _ _ _ _ Hc) as (o & _ & -> & _).
  assert (Hcode : Map_code
            (with_base_address
               (with_fresh_storage (new_SharedMemory owner nm size' perms0 other0) o) 0)
            target proc address perms other = Some RESULT_SUCCESS)
    by (unfold Map_code; rewrite Hm; reflexivity).
  apply Map_success_checks in Hcode as (Hp & Ha & Hv).
  rewrite (Map_checks_passed _ _ _ _ _ _ Hp Ha Hv) in Hm.
  unfold target_address in Hm. simpl in Hm.
  destruct (Z.eqb_spec address 0); [contradiction |]. simpl in Hm.
  destruct (MapBackingMemory (vm_manager proc) address o size' MemoryState_Shared)
    as [[handle|code] vm] eqn:Hbind; simpl in Hm; [| discriminate].
  inversion Hm. exists handle, vm. simpl.
  split; [exact Hbind |]. split; [reflexivity |].
  unfold Unmap. simpl. destruct (UnmapRange _ _ _). reflexivity.
Qed.

End Properties.

(** * The properties on concrete calls *)

#[local] Existing Instance console_layout.
#[local] Existing Instance bump_regions.
#[local] Existing Instance flat_vm.

Ltac u32_literal := unfold is_u32; vm_compute; split; [discriminate | reflexivity].

Lemma perm_subset_Read_ReadWrite : perm_subset MemoryPermission_Read MemoryPermission_ReadWrite.
Proof. apply perm_exceeds_false; [unfold is_u32, MemoryPermission_Read; lia | reflexivity]. Qed.

Lemma perm_subset_ReadWrite_Read : ~ perm_subset MemoryPermission_ReadWrite MemoryPermission_Read.
Proof. apply perm_exceeds_true; [unfold is_u32, MemoryPermission_ReadWrite; lia | reflexivity]. Qed.

Lemma perm_subset_Read_DontCare : ~ perm_subset MemoryPermission_Read 0x10000000.
Proof. apply perm_exceeds_true; [unfold is_u32, MemoryPermission_Read; lia | reflexivity]. Qed.

(** The owner maps the fresh object read-only at address 0 and succeeds; a
    stranger asking for read access is refused, as [DontCare] grants no
    bit; the owner of the borrowed object, offering only read access to the
    others while the object is read-write, gets [ERR_WRONG_PERMISSION]. *)
Lemma Map_permission_law_witness :
  (perm_subset MemoryPermission_Read (own_other_permissions sample_fresh 1%nat))
  /\ Map_code sample_fresh 2%nat sample_process 0 MemoryPermission_Read 0x10000000
     = Some ERR_INVALID_COMBINATION
  /\ Map_code sample_borrowed 1%nat sample_process 0x10000000
       MemoryPermission_Read MemoryPermission_Read
     = Some ERR_WRONG_PERMISSION.
Proof.
  assert (Hr : is_u32 MemoryPermission_Read) by (unfold is_u32, MemoryPermission_Read; lia).
  assert (Hrw : is_u32 MemoryPermission_ReadWrite)
    by (unfold is_u32, MemoryPermission_ReadWrite; lia).
  split; [| split].
  - destruct (Map_permission_law sample_fresh 1%nat sample_process 0
                MemoryPermission_Read 0x10000000 Hr Hrw) as (Hsuccess & _ & _).
    apply Hsuccess. vm_compute. reflexivity.
  - destruct (Map_permission_law sample_fresh 2%nat sample_process 0
                MemoryPermission_Read 0x10000000 Hr Hrw) as (_ & Hexceed & _).
    apply Hexceed. exact perm_subset_Read_DontCare.
  - destruct (Map_permission_law sample_borrowed 1%nat sample_process 0x10000000
                MemoryPermission_Read MemoryPermission_Read Hr Hrw) as (_ & _ & Hother).
    apply Hother.
    + vm_compute. discriminate.
    + exact perm_subset_ReadWrite_Read.
    + vm_compute. discriminate.
    + exact perm_subset_Read_ReadWrite.
Defined.

(** The fresh object is read-write and the caller offers the others read
    access only: the second inclusion fails, yet the answer is
    [ERR_INVALID_COMBINATION], from the check of line 105. *)
Lemma permission_law_counterexample : ~ permission_law_as_written.
Proof.
  intros Hlaw.
  destruct (Hlaw sample_fresh 1%nat sample_process 0
              MemoryPermission_None MemoryPermission_Read) as (_ & _ & Hwrong).
  - unfold is_u32, MemoryPermission_None. lia.
  - unfold is_u32. simpl. unfold MemoryPermission_ReadWrite. lia.
  - specialize (Hwrong ltac:(vm_compute; discriminate) perm_subset_ReadWrite_Read).
    vm_compute in Hwrong. discriminate.
Qed.

Lemma Map_DontCare_exclusivity_witness :
  Map sample_fresh 2%nat sample_process 0 MemoryPermission_Read MemoryPermission_Read
  = Return (ERR_INVALID_COMBINATION, (sample_fresh, sample_process))
  /\ Map sample_borrowed 2%nat sample_process 0x10000000 MemoryPermission_Read 0x10000000
     = Return (ERR_INVALID_COMBINATION, (sample_borrowed, sample_process)).
Proof.
  split.
  - destruct (Map_DontCare_exclusivity sample_fresh 2%nat sample_process 0
                MemoryPermission_Read MemoryPermission_Read) as (Hfresh & _).
    apply Hfresh; [reflexivity | vm_compute; discriminate].
  - destruct (Map_DontCare_exclusivity sample_borrowed 2%nat sample_process 0x10000000
                MemoryPermission_Read 0x10000000) as (_ & Hborrowed).
    apply Hborrowed; [vm_compute; discriminate | reflexivity].
Defined.

(** The three sample objects are what the creation entry points return. *)
Lemma sample_fresh_created :
  exists k',
    CreateSharedMemory sample_kernel (Some 1%nat) 0x1000 MemoryPermission_ReadWrite
      0x10000000 0 APPLICATION "fresh" = Return (MakeResult sample_fresh, k').
Proof. eexists. vm_compute. reflexivity. Qed.

Lemma sample_borrowed_created :
  exists k',
    CreateSharedMemory sample_kernel (Some 1%nat) 0x1000 MemoryPermission_ReadWrite
      MemoryPermission_Read 0x08000000 SYSTEM "borrowed"
    = Return (MakeResult sample_borrowed, k').
Proof. eexists. vm_compute. reflexivity. Qed.

Lemma sample_applet_created :
  exists k',
    CreateSharedMemoryForApplet sample_kernel 0 0x1000 MemoryPermission_ReadWrite
      MemoryPermission_ReadWrite "applet" = Return (sample_applet, k').
Proof. eexists. vm_compute. reflexivity. Qed.

(** Mapped by its owner at address 0, the fresh object lands at 0x14000000
    in a free area that holds it; aimed at the owner's heap page, which is
    in the band but taken, it is refused with [ERR_INVALID_ADDRESS_STATE]. *)
Lemma Map_address_containment_witness :
  free_and_contains (FindVMA sample_vm 0x14000000) 0x14000000 0x1000
  /\ Map sample_fresh 1%nat sample_process 0x08000000 MemoryPermission_Read 0x10000000
     = Return (ERR_INVALID_ADDRESS_STATE, (sample_fresh, sample_process)).
Proof.
  split.
  - destruct (Map_address_containment sample_fresh 1%nat sample_process 0
                MemoryPermission_Read 0x10000000) as (Hsuccess & _).
    + reflexivity.
    + reflexivity.
    + vm_compute. discriminate.
    + u32_literal.
    + u32_literal.
    + apply Hsuccess. vm_compute. reflexivity.
  - destruct (Map_address_containment sample_fresh 1%nat sample_process 0x08000000
                MemoryPermission_Read 0x10000000) as (_ & Hrefused).
    + reflexivity.
    + reflexivity.
    + vm_compute. discriminate.
    + u32_literal.
    + u32_literal.
    + apply Hrefused. intros (Hfree & _). vm_compute in Hfree. discriminate.
Defined.

(** The page of code at 0x00100000 is below the band: the permission checks
    pass, the area there is taken, and the answer is [ERR_INVALID_ADDRESS],
    from the check of line 141. *)
Lemma address_containment_counterexample : ~ address_containment_as_written.
Proof.
  intros Hlaw.
  destruct (Hlaw sample_fresh 1%nat sample_process 0x00100000
              MemoryPermission_Read 0x10000000) as (_ & Hstate).
  - reflexivity.
  - assert (Hcode : Map_code sample_fresh 1%nat sample_process 0x00100000
                      MemoryPermission_Read 0x10000000
                    = Some ERR_INVALID_ADDRESS_STATE).
    { apply Hstate. intros (Hfree & _). vm_compute in Hfree. discriminate. }
    vm_compute in Hcode. discriminate.
Qed.

Lemma Map_zero_address_placement_witness :
  target_address sample_fresh 0 = 0x14000000
  /\ forall code self' proc',
       Map sample_fresh 1%nat sample_process 0 MemoryPermission_Read 0x10000000
       = Return (code, (self', proc')) ->
       self' = sample_fresh /\ target_address self' 0 = 0x14000000.
Proof.
  destruct (Map_zero_address_placement sample_fresh 1%nat sample_process
              MemoryPermission_Read 0x10000000 eq_refl) as (Haddr & _ & _ & Hstable).
  split; [exact Haddr | exact Hstable].
Defined.

(** The call aimed at the page of code returns [ERR_INVALID_ADDRESS]; what
    it hands back is what it was given. *)
Lemma Map_error_leaves_state_witness :
  Map sample_fresh 1%nat sample_process 0x00100000 MemoryPermission_Read 0x10000000
  = Return (ERR_INVALID_ADDRESS, (sample_fresh, sample_process))
  /\ (sample_fresh = sample_fresh /\ sample_process = sample_process).
Proof.
  split; [reflexivity |].
  apply (Map_error_leaves_state sample_fresh 1%nat sample_process 0x00100000
           MemoryPermission_Read 0x10000000
           ERR_INVALID_ADDRESS sample_fresh sample_process).
  - reflexivity.
  - right. right. left. reflexivity.
Defined.

(** Out of the band, below the heap: refused. Well inside it: let through. *)
Lemma Map_band_check_witness :
  Map sample_fresh 1%nat sample_process 0x00100000 MemoryPermission_Read 0x10000000
  = Return (ERR_INVALID_ADDRESS, (sample_fresh, sample_process))
  /\ Map_code sample_fresh 1%nat sample_process 0x10000000 MemoryPermission_Read 0x10000000
     <> Some ERR_INVALID_ADDRESS.
Proof.
  split.
  - destruct (Map_band_check sample_fresh 1%nat sample_process 0x00100000
                MemoryPermission_Read 0x10000000) as (Hout & _).
    + discriminate.
    + reflexivity.
    + u32_literal.
    + apply Hout. intros (Hlow & _). vm_compute in Hlow. apply Hlow. reflexivity.
  - destruct (Map_band_check sample_fresh 1%nat sample_process 0x10000000
                MemoryPermission_Read 0x10000000) as (_ & Hin).
    + discriminate.
    + reflexivity.
    + u32_literal.
    + apply Hin; [vm_compute; discriminate | reflexivity].
Defined.

(** The same address below the band, but [other_permissions] is not
    [DontCare] on a fresh object: the block is outside the band and the
    answer is [ERR_INVALID_COMBINATION], from the check of line 105. *)
Lemma band_check_counterexample : ~ band_check_as_written.
Proof.
  intros Hlaw.
  destruct (Hlaw sample_fresh 1%nat sample_process 0x00100000
              MemoryPermission_Read MemoryPermission_Read) as (_ & Hout).
  - discriminate.
  - u32_literal.
  - u32_literal.
  - assert (Hcode : Map_code sample_fresh 1%nat sample_process 0x00100000
                      MemoryPermission_Read MemoryPermission_Read
                    = Some ERR_INVALID_ADDRESS).
    { apply Hout. intros (Hlow & _). vm_compute in Hlow. apply Hlow. reflexivity. }
    vm_compute in Hcode. discriminate.
Qed.

(** Two more calls at the edges of the band check. The last page of the
    band, [0x13FFF000, 0x14000000), is inside the band and refused; a block
    at the top of the 32-bit space, whose end wraps around to 0, is outside
    the band and let through. *)
Example Map_last_page_of_band :
  in_shared_memory_band 0x13FFF000 (size sample_fresh)
  /\ Map_code sample_fresh 1%nat sample_process 0x13FFF000 MemoryPermission_Read 0x10000000
     = Some ERR_INVALID_ADDRESS.
Proof. split; [split; vm_compute; discriminate | reflexivity]. Qed.

Example Map_band_check_wraps :
  ~ in_shared_memory_band 0xFFFFF000 (size sample_fresh)
  /\ check_address sample_fresh 0xFFFFF000 = None.
Proof.
  split; [| reflexivity]. intros (_ & Hhigh). vm_compute in Hhigh. apply Hhigh. reflexivity.
Qed.

(** ** Life cycle *)

(** The applet object is kernel-allocated and owns its interval, and its
    [base_address] is [HEAP_VADDR], not 0. *)
Lemma storage_invariant_counterexample : ~ storage_invariant_as_written.
Proof.
  intros Hlaw.
  destruct (Hlaw AppletAllocation sample_applet) as ((_ & Hbase) & _).
  - destruct sample_applet_created as [k' Hk']. simpl.
    exists sample_kernel, 0, 0x1000, MemoryPermission_ReadWrite,
      MemoryPermission_ReadWrite, "applet", k'. exact Hk'.
  - assert (Hzero : base_address sample_applet = 0) by (apply Hbase; discriminate).
    vm_compute in Hzero. discriminate.
Qed.

Lemma creation_storage_invariant_witness :
  ((base_address sample_fresh = 0 <-> 0 = 0) /\
   (holding_memory sample_fresh = [] <-> 0 <> 0))
  /\ ((base_address sample_borrowed = 0 <-> 0x08000000 = 0) /\
      (holding_memory sample_borrowed = [] <-> 0x08000000 <> 0))
  /\ (owner_process sample_applet = None /\
      base_address sample_applet = u32 (HEAP_VADDR + 0) /\
      holding_memory sample_applet <> []).
Proof.
  destruct creation_storage_invariant as [Hcreate Happlet].
  destruct sample_fresh_created as [k1 Hfresh].
  destruct sample_borrowed_created as [k2 Hborrowed].
  destruct sample_applet_created as [k3 Hk3].
  split; [| split].
  - destruct (Hcreate _ _ _ _ _ _ _ _ _ _ Hfresh) as [Hbase Hholding].
    split; [exact Hbase |].
    apply Hholding; [reflexivity | discriminate | u32_literal].
  - destruct (Hcreate _ _ _ _ _ _ _ _ _ _ Hborrowed) as [Hbase Hholding].
    split; [exact Hbase |].
    apply Hholding; [reflexivity | discriminate | u32_literal].
  - destruct (Happlet _ _ _ _ _ _ _ _ Hk3) as (Howner & Hbase & _ & Hholding).
    auto.
Defined.

(** With a nonzero address and no owner the call faults; with address 0 the
    ownerless call returns an object at offset 0, and the call made for
    process 1 returns the same kernel plus 4 KiB on the [memory_used] of
    process 1. *)
Lemma CreateSharedMemory_owner_precondition_witness :
  CreateSharedMemory sample_kernel None 0x1000 MemoryPermission_ReadWrite
    MemoryPermission_Read 0x08000000 SYSTEM "borrowed" = InvalidDeref
  /\ exists sm0 k0,
       CreateSharedMemory sample_kernel None 0x1000 MemoryPermission_ReadWrite
         0x10000000 0 APPLICATION "fresh" = Return (MakeResult sm0, k0) /\
       owner_process sm0 = None /\
       linear_heap_phys_offset sm0 = 0 /\
       processes k0 = processes sample_kernel /\
       exists sm1 k1,
         CreateSharedMemory sample_kernel (Some 1%nat) 0x1000 MemoryPermission_ReadWrite
           0x10000000 0 APPLICATION "fresh" = Return (MakeResult sm1, k1) /\
         sm1 = sample_fresh /\
         processes k1 =
           <[1%nat := {| vm_manager := sample_vm; memory_used := 0x1000 |}]>
             (processes k0).
Proof.
  split.
  - destruct (CreateSharedMemory_owner_precondition sample_kernel 0x1000
                MemoryPermission_ReadWrite MemoryPermission_Read SYSTEM "borrowed")
      as (Hnull & _ & _).
    apply Hnull. discriminate.
  - destruct (CreateSharedMemory_owner_precondition sample_kernel 0x1000
                MemoryPermission_ReadWrite 0x10000000 APPLICATION "fresh")
      as (_ & Hreturned & _).
    destruct (Hreturned 0 eq_refl) as (sm0 & k0 & Hnone & Hsm0 & Hprocs & Howner).
    exists sm0, k0. split; [exact Hnone |].
    split; [rewrite Hsm0; reflexivity |]. split; [rewrite Hsm0; reflexivity |].
    split; [exact Hprocs |].
    destruct (Howner 1%nat sample_process eq_refl)
      as (sm1 & k1 & Hsome & Hsm1 & _ & _ & Hcharged).
    exists sm1, k1. split; [exact Hsome |].
    split; [rewrite Hsm1; reflexivity |]. exact Hcharged.
Defined.

(** The lent page goes back to process 1 as Private / ReadWrite and process
    2 is left alone; the ownerless applet object touches no process; once
    process 1 is gone, destroying the object that borrowed from it
    dereferences the stale pointer. *)
Lemma SharedMemory_dtor_owner_cases_witness :
  (exists k',
     SharedMemory_dtor sample_borrowed lending_kernel = Return k' /\
     processes k' = processes sample_kernel)
  /\ (exists k',
        SharedMemory_dtor sample_applet sample_kernel = Return k' /\
        processes k' = processes sample_kernel)
  /\ SharedMemory_dtor sample_borrowed orphaned_kernel = InvalidDeref.
Proof.
  split; [| split].
  - destruct (SharedMemory_dtor_owner_cases sample_borrowed lending_kernel)
      as (Hrestore & _ & _ & _).
    destruct (Hrestore 1%nat
                (set_vm_manager sample_process
                   (snd (lock_owner_range (VM := flat_vm) 0x08000000 0x1000
                           MemoryPermission_ReadWrite sample_vm))))
      as (k' & Hdtor & Hprocs); [discriminate | reflexivity | reflexivity |].
    exists k'. split; [exact Hdtor |]. rewrite Hprocs. vm_compute. reflexivity.
  - destruct (SharedMemory_dtor_owner_cases sample_applet sample_kernel)
      as (_ & Hskip & _ & _).
    apply Hskip. reflexivity.
  - destruct (SharedMemory_dtor_owner_cases sample_borrowed orphaned_kernel)
      as (_ & _ & Hgone & _).
    apply (Hgone 1%nat); [discriminate | reflexivity | reflexivity].
Defined.

(** Lending the heap page of process 1 and dropping the object at once
    leaves the kernel as it was. *)
Example borrowed_round_trip :
  create_then_destroy sample_kernel (Some 1%nat) 0x1000 MemoryPermission_ReadWrite
    MemoryPermission_Read 0x08000000 SYSTEM "borrowed" = Return sample_kernel.
Proof. vm_compute. reflexivity. Qed.

(** C6, the code on a block taken from the APPLICATION region: a fresh
    object of 4 KiB is created there and destroyed. Should the bytes go back
    to the allocator they came from, APPLICATION would see them freed; what
    happens is that APPLICATION keeps its 4 KiB allocated and is told
    nothing, while SYSTEM, which allocated nothing, is handed
    [Free(0, 0x1000)]. *)
Theorem fresh_APPLICATION_block_freed_into_SYSTEM :
  match create_then_destroy sample_kernel None 0x1000 MemoryPermission_ReadWrite
          0x10000000 0 APPLICATION "fresh" with
  | Return k =>
      bump_next (memory_regions k APPLICATION) = 0x1000 /\
      bump_freed (memory_regions k APPLICATION) = [] /\
      bump_next (memory_regions k SYSTEM) = 0 /\
      bump_freed (memory_regions k SYSTEM) = [(0, 0x1000)]
  | _ => False
  end.
Proof. vm_compute. auto. Qed.

(** From the SYSTEM region the same block does come back where it was
    taken. *)
Example fresh_SYSTEM_block_freed_into_SYSTEM :
  match create_then_destroy sample_kernel None 0x1000 MemoryPermission_ReadWrite
          0x10000000 0 SYSTEM "fresh" with
  | Return k =>
      bump_next (memory_regions k SYSTEM) = 0x1000 /\
      bump_freed (memory_regions k SYSTEM) = [(0, 0x1000)]
  | _ => False
  end.
Proof. vm_compute. auto. Qed.

(** ** The further properties on concrete calls *)

Lemma sample_empty_created :
  exists k',
    CreateSharedMemory sample_kernel None 0 MemoryPermission_ReadWrite
      0x10000000 0 SYSTEM "empty" = Return (MakeResult sample_empty, k').
Proof. eexists. vm_compute. reflexivity. Qed.

(** Bit 28 alone converts to no access. *)
Lemma ConvertPermissions_low_bits_witness :
  ConvertPermissions 0x10000000 = VMAPermission_None.
Proof.
  destruct (ConvertPermissions_low_bits 0x10000000) as (_ & _ & _ & _ & Hnone).
  apply Hnone. intros i Hi.
  assert (Hcases : i = 0 \/ i = 1 \/ i = 2) by lia.
  destruct Hcases as [-> | [-> | ->]]; reflexivity.
Defined.

Lemma Map_WrongPermission_iff_witness :
  Map_code sample_borrowed 1%nat sample_process 0x10000000
    MemoryPermission_Read MemoryPermission_Read = Some ERR_WRONG_PERMISSION.
Proof.
  apply (Map_WrongPermission_iff sample_borrowed 1%nat sample_process 0x10000000
           MemoryPermission_Read MemoryPermission_Read).
  - u32_literal.
  - u32_literal.
  - split; [vm_compute; discriminate |]. split; [vm_compute; discriminate |].
    split; [exact perm_subset_Read_ReadWrite | exact perm_subset_ReadWrite_Read].
Defined.

Lemma Map_InvalidCombination_iff_witness :
  Map_code sample_fresh 2%nat sample_process 0
    MemoryPermission_None MemoryPermission_Read = Some ERR_INVALID_COMBINATION.
Proof.
  apply (Map_InvalidCombination_iff sample_fresh 2%nat sample_process 0
           MemoryPermission_None MemoryPermission_Read).
  - u32_literal.
  - left. split; [reflexivity | vm_compute; discriminate].
Defined.

Lemma Map_InvalidAddress_iff_witness :
  Map_code sample_fresh 1%nat sample_process 0x13FFF000
    MemoryPermission_Read 0x10000000 = Some ERR_INVALID_ADDRESS.
Proof.
  apply (Map_InvalidAddress_iff sample_fresh 1%nat sample_process 0x13FFF000
           MemoryPermission_Read 0x10000000).
  split; [reflexivity |]. split; [discriminate |].
  right. vm_compute. discriminate.
Defined.

Lemma Map_after_checks_witness :
  Map_code sample_fresh 1%nat sample_process 0 MemoryPermission_Read 0x10000000
  = Some RESULT_SUCCESS
  \/ Map sample_fresh 1%nat sample_process 0 MemoryPermission_Read 0x10000000
     = AssertFailed.
Proof.
  destruct (Map_after_checks sample_fresh 1%nat sample_process 0
              MemoryPermission_Read 0x10000000) as (Hpassed & _).
  apply Hpassed; reflexivity.
Defined.

(** Two blocks of 4 KiB from 0x14000000: the second is bound at
    0x14001000. *)
Lemma map_blocks_app_witness :
  map_blocks (VM := flat_vm) sample_vm 0x14000000 MemoryPermission_Read
    ([(0, 0x1000)] ++ [(0x1000, 0x1000)])
  = vm' ← map_blocks (VM := flat_vm) sample_vm 0x14000000 MemoryPermission_Read
            [(0, 0x1000)];
    map_blocks (VM := flat_vm) vm' (u32 (0x14000000 + block_lengths [(0, 0x1000)]))
      MemoryPermission_Read [(0x1000, 0x1000)].
Proof.
  apply (map_blocks_app (VM := flat_vm) sample_vm 0x14000000 MemoryPermission_Read
           [(0, 0x1000)] [(0x1000, 0x1000)]).
  u32_literal.
Defined.

Lemma Map_writes_address_space_only_witness :
  exists code self' proc',
    Map sample_fresh 1%nat sample_process 0 MemoryPermission_Read 0x10000000
    = Return (code, (self', proc')) /\
    code = RESULT_SUCCESS /\
    self' = sample_fresh /\ memory_used proc' = memory_used sample_process.
Proof.
  eexists _, _, _. split; [reflexivity |]. split; [reflexivity |].
  apply (Map_writes_address_space_only sample_fresh 1%nat sample_process 0
           MemoryPermission_Read 0x10000000 RESULT_SUCCESS).
  reflexivity.
Defined.

Lemma CreateSharedMemory_zero_fill_witness :
  exists k',
    CreateSharedMemory sample_kernel (Some 1%nat) 0x1000 MemoryPermission_ReadWrite
      0x10000000 0 APPLICATION "fresh" = Return (MakeResult sample_fresh, k') /\
    fcram k' 0xFFF = 0 /\ fcram k' 0x1000 = 0xFF.
Proof.
  destruct sample_fresh_created as [k' Hk']. exists k'. split; [exact Hk' |].
  pose proof (CreateSharedMemory_zero_fill _ _ _ _ _ _ _ _ _ Hk') as Hfill.
  split; rewrite Hfill; reflexivity.
Defined.

Lemma CreateSharedMemory_fresh_footprint_witness :
  exists k',
    CreateSharedMemory sample_kernel (Some 1%nat) 0x1000 MemoryPermission_ReadWrite
      0x10000000 0 APPLICATION "fresh" = Return (MakeResult sample_fresh, k') /\
    memory_regions k' SYSTEM = sample_region /\
    exists proc,
      processes sample_kernel !! 1%nat = Some proc /\
      processes k' =
        <[1%nat := {| vm_manager := vm_manager proc;
                      memory_used := u32 (memory_used proc + 0x1000) |}]>
          (processes sample_kernel).
Proof.
  destruct sample_fresh_created as [k' Hk']. exists k'. split; [exact Hk' |].
  destruct (CreateSharedMemory_fresh_footprint _ _ _ _ _ _ _ _ _ Hk')
    as (_ & Hothers & Howner).
  split; [| exact Howner].
  rewrite (Hothers SYSTEM) by discriminate. reflexivity.
Defined.

(** No room for 256 MiB in a region of 128 MiB: the [ASSERT] fails. *)
Lemma CreateSharedMemory_fresh_outcome_witness :
  CreateSharedMemory sample_kernel None 0x10000000 MemoryPermission_ReadWrite
    0x10000000 0 SYSTEM "large" = AssertFailed.
Proof.
  destruct (CreateSharedMemory_fresh_outcome sample_kernel None 0x10000000
              MemoryPermission_ReadWrite 0x10000000 SYSTEM "large") as (_ & Hassert & _).
  apply Hassert. reflexivity.
Defined.

(** Nothing is mapped at 0x09000000, so the range cannot be locked. *)
Lemma CreateSharedMemory_borrow_error_witness :
  CreateSharedMemory sample_kernel (Some 1%nat) 0x1000 MemoryPermission_ReadWrite
    MemoryPermission_Read 0x09000000 SYSTEM "nowhere"
  = Return (ErrorResult ERR_INVALID_ADDRESS_STATE,
            set_process sample_kernel 1%nat (set_vm_manager sample_process sample_vm)).
Proof.
  apply (CreateSharedMemory_borrow_error sample_kernel 1%nat sample_process 0x1000
           MemoryPermission_ReadWrite MemoryPermission_Read 0x09000000 SYSTEM "nowhere"
           ERR_INVALID_ADDRESS_STATE sample_vm).
  - discriminate.
  - reflexivity.
  - reflexivity.
  - discriminate.
Defined.

Lemma CreateSharedMemory_borrow_footprint_witness :
  exists k',
    CreateSharedMemory sample_kernel (Some 1%nat) 0x1000 MemoryPermission_ReadWrite
      MemoryPermission_Read 0x08000000 SYSTEM "borrowed"
    = Return (MakeResult sample_borrowed, k') /\
    memory_regions k' = memory_regions sample_kernel /\
    fcram k' = fcram sample_kernel /\
    holding_memory sample_borrowed = [].
Proof.
  destruct sample_borrowed_created as [k' Hk']. exists k'. split; [exact Hk' |].
  assert (Hnz : 0x08000000 <> 0) by discriminate.
  destruct (CreateSharedMemory_borrow_footprint _ _ _ _ _ _ _ _ _ _ Hnz Hk')
    as (Hregions & Hfcram & _ & Hobject).
  split; [exact Hregions |]. split; [exact Hfcram |].
  destruct (Hobject sample_borrowed eq_refl) as (Hholding & _). exact Hholding.
Defined.

Lemma GetPointer_fresh_witness :
  exists k',
    CreateSharedMemory sample_kernel (Some 1%nat) 0x1000 MemoryPermission_ReadWrite
      0x10000000 0 APPLICATION "fresh" = Return (MakeResult sample_fresh, k') /\
    GetPointer sample_fresh 0x10 = Return (linear_heap_phys_offset sample_fresh + 0x10) /\
    fcram k' 0x10 = 0.
Proof.
  destruct sample_fresh_created as [k' Hk']. exists k'. split; [exact Hk' |].
  destruct (GetPointer_fresh _ _ _ _ _ _ _ _ _ Hk' 0x10) as (Hpointer & Hzero).
  split; [exact Hpointer |].
  apply Hzero; [split; [discriminate | reflexivity] | reflexivity].
Defined.

Lemma CreateSharedMemoryForApplet_backing_witness :
  exists k',
    CreateSharedMemoryForApplet sample_kernel 0 0x1000 MemoryPermission_ReadWrite
      MemoryPermission_ReadWrite "applet" = Return (sample_applet, k') /\
    backing_blocks sample_applet
    = List.map (fun interval => (lower interval, u32 (upper interval - lower interval)))
               (holding_memory sample_applet).
Proof.
  destruct sample_applet_created as [k' Hk']. exists k'. split; [exact Hk' |].
  destruct (CreateSharedMemoryForApplet_backing _ _ _ _ _ _ _ _ Hk') as (Hbacking & _).
  exact Hbacking.
Defined.

Lemma CreateSharedMemoryForApplet_zero_fill_witness :
  exists k',
    CreateSharedMemoryForApplet sample_kernel 0 0x1000 MemoryPermission_ReadWrite
      MemoryPermission_ReadWrite "applet" = Return (sample_applet, k') /\
    fcram k' 0xFFF = 0.
Proof.
  destruct sample_applet_created as [k' Hk']. exists k'. split; [exact Hk' |].
  destruct (CreateSharedMemoryForApplet_zero_fill _ _ _ _ _ _ _ _ Hk') as (Hinside & _).
  apply (Hinside 0xFFF (0, 0x1000)).
  - left. reflexivity.
  - split; [discriminate | reflexivity].
Defined.

Lemma CreateSharedMemoryForApplet_outcome_witness :
  exists k',
    CreateSharedMemoryForApplet sample_kernel 0 0x1000 MemoryPermission_ReadWrite
      MemoryPermission_ReadWrite "applet" = Return (sample_applet, k') /\
    processes k' = processes sample_kernel /\
    memory_regions k' APPLICATION = sample_region.
Proof.
  destruct sample_applet_created as [k' Hk']. exists k'. split; [exact Hk' |].
  destruct (CreateSharedMemoryForApplet_outcome sample_kernel 0 0x1000
              MemoryPermission_ReadWrite MemoryPermission_ReadWrite "applet")
    as (_ & Hreturned).
  destruct (Hreturned _ _ Hk') as (_ & Hothers & Hprocs & _).
  split; [exact Hprocs |].
  rewrite (Hothers APPLICATION) by discriminate. reflexivity.
Defined.

Lemma applet_storage_returns_to_SYSTEM_witness :
  exists k1,
    CreateSharedMemoryForApplet sample_kernel 0 0x1000 MemoryPermission_ReadWrite
      MemoryPermission_ReadWrite "applet" = Return (sample_applet, k1) /\
    exists k2,
      SharedMemory_dtor sample_applet k1 = Return k2 /\
      bump_freed (memory_regions k2 SYSTEM) = [(0, 0x1000)] /\
      processes k2 = processes sample_kernel.
Proof.
  destruct sample_applet_created as [k1 Hk1]. exists k1. split; [exact Hk1 |].
  destruct (applet_storage_returns_to_SYSTEM _ _ _ _ _ _ _ _ Hk1)
    as (k2 & Hdtor & Hsystem & _ & Hprocs).
  exists k2. split; [exact Hdtor |]. split; [| exact Hprocs].
  exact (eq_trans (f_equal bump_freed Hsystem) eq_refl).
Defined.

Lemma applet_object_Map_witness :
  exists k',
    CreateSharedMemoryForApplet sample_kernel 0 0x1000 MemoryPermission_ReadWrite
      MemoryPermission_ReadWrite "applet" = Return (sample_applet, k') /\
    forall target, own_other_permissions sample_applet target = MemoryPermission_ReadWrite.
Proof.
  destruct sample_applet_created as [k' Hk']. exists k'. split; [exact Hk' |].
  destruct (applet_object_Map _ _ _ _ _ _ _ _ Hk') as (Hother & _). exact Hother.
Defined.

Lemma memory_used_not_refunded_witness :
  exists k2,
    create_then_destroy sample_kernel (Some 1%nat) 0x1000 MemoryPermission_ReadWrite
      0x10000000 0 APPLICATION "fresh" = Return k2 /\
    processes k2 =
      <[1%nat := {| vm_manager := vm_manager sample_process;
                    memory_used := u32 (memory_used sample_process + 0x1000) |}]>
        (processes sample_kernel).
Proof.
  apply (memory_used_not_refunded sample_kernel 1%nat sample_process 0x1000
           MemoryPermission_ReadWrite 0x10000000 APPLICATION "fresh" 0);
    reflexivity.
Defined.

Lemma SharedMemory_dtor_base_address_zero_witness :
  exists k',
    SharedMemory_dtor sample_fresh sample_kernel = Return k' /\
    processes k' = processes sample_kernel /\
    fcram k' = fcram sample_kernel /\
    forall r, r <> SYSTEM -> memory_regions k' r = memory_regions sample_kernel r.
Proof.
  apply (SharedMemory_dtor_base_address_zero sample_fresh sample_kernel). reflexivity.
Defined.

Lemma CreateSharedMemory_zero_size_witness :
  exists k1,
    CreateSharedMemory sample_kernel None 0 MemoryPermission_ReadWrite
      0x10000000 0 SYSTEM "empty" = Return (MakeResult sample_empty, k1) /\
    holding_memory sample_empty = [] /\
    exists k2,
      SharedMemory_dtor sample_empty k1 = Return k2 /\
      memory_regions k2 = memory_regions k1.
Proof.
  destruct sample_empty_created as [k1 Hk1]. exists k1. split; [exact Hk1 |].
  destruct (CreateSharedMemory_zero_size _ _ _ _ _ _ _ _ Hk1) as (Hholding & _ & Hdtor).
  - u32_literal.
  - split; [exact Hholding | exact Hdtor].
Defined.

Lemma borrowed_life_cycle_witness :
  exists k1,
    CreateSharedMemory sample_kernel (Some 1%nat) 0x1000 MemoryPermission_ReadWrite
      MemoryPermission_Read 0x08000000 SYSTEM "borrowed"
    = Return (MakeResult sample_borrowed, k1) /\
    exists k2,
      SharedMemory_dtor sample_borrowed k1 = Return k2 /\
      memory_regions k2 = memory_regions sample_kernel /\
      fcram k2 = fcram sample_kernel /\
      processes k2 = processes sample_kernel.
Proof.
  destruct sample_borrowed_created as [k1 Hk1]. exists k1. split; [exact Hk1 |].
  assert (Hnz : 0x08000000 <> 0) by discriminate.
  destruct (borrowed_life_cycle sample_kernel 1%nat sample_process _ _ _ _ _ _ _ _
              Hnz eq_refl Hk1) as (k2 & Hdtor & Hregions & Hfcram & Hprocs).
  exists k2. split; [exact Hdtor |]. split; [exact Hregions |].
  split; [exact Hfcram |]. rewrite Hprocs. vm_compute. reflexivity.
Defined.

(** Mapped by its owner at 0x10000000 and unmapped there, on the reference
    manager: both calls succeed. *)
Lemma Map_then_Unmap_fresh_witness :
  exists k' proc',
    CreateSharedMemory sample_kernel (Some 1%nat) 0x1000 MemoryPermission_ReadWrite
      0x10000000 0 APPLICATION "fresh" = Return (MakeResult sample_fresh, k') /\
    Map sample_fresh 1%nat sample_process 0x10000000 MemoryPermission_Read 0x10000000
    = Return (RESULT_SUCCESS, (sample_fresh, proc')) /\
    fst (Unmap sample_fresh proc' 0x10000000) = RESULT_SUCCESS.
Proof.
  destruct sample_fresh_created as [k' Hk']. exists k'. eexists.
  split; [exact Hk' |]. split; [reflexivity |].
  assert (Hnz : 0x10000000 <> 0) by discriminate.
  match goal with
  | |- fst (Unmap _ ?mapped _) = _ =>
      assert (Hmap : Map sample_fresh 1%nat sample_process 0x10000000
                       MemoryPermission_Read 0x10000000
                     = Return (RESULT_SUCCESS, (sample_fresh, mapped)))
        by reflexivity
  end.
  destruct (Map_then_Unmap_fresh _ _ _ _ _ _ _ _ _ _ _ _ _ _ _ Hk' Hnz Hmap)
    as (handle & vm & _ & _ & Hunmap).
  rewrite Hunmap. reflexivity.
Defined.

End Kernel.
